(** * Investment tracker backend: the data-access layer and the user routes

    A shallow embedding of [app/crud.py] and [app/api/routes/users.py].

    The relational session is a record of tables threaded through every
    call.  Each [session.commit()] of the source is immediate, so a write is
    visible in the store from the point of the call on, also when a later
    statement of the same request raises.  Python exceptions are the [Raise]
    outcomes of the [Session] monad. *)

From Stdlib Require Import ZArith Lia.
From stdpp Require Import base option list strings gmap fin_maps.

Set Default Proof Using "Type".

(** ** Python values *)

(** [datetime] values, as points on the time line. *)
Record datetime := Datetime { timestamp : Z }.

(** The values an attribute of a mapped object can hold.  Floats are carried
    by their bit pattern: the code stores and copies them, nothing more. *)
Inductive pyval :=
| PNone
| PInt (n : Z)
| PStr (s : string)
| PFloat (bits : Z)
| PDate (d : datetime).

#[global] Instance datetime_eq_dec : EqDecision datetime.
Proof. solve_decision. Defined.

#[global] Instance pyval_eq_dec : EqDecision pyval.
Proof. solve_decision. Defined.

(** Truth value testing, [if x:] and [not x]. *)
Class Truthy (A : Type) := truthy : A → bool.

(** A string is true when it is not empty. *)
#[global] Instance str_truthy : Truthy string :=
  λ s, negb (String.eqb s "").

(** An integer is true when it is not zero. *)
#[global] Instance int_truthy : Truthy Z :=
  λ n, negb (n =? 0)%Z.

(** [datetime] defines neither [__bool__] nor [__len__]: always true. *)
#[global] Instance datetime_truthy : Truthy datetime :=
  λ _, true.

(** [None] is false; an optional argument is tested through its value. *)
#[global] Instance optional_truthy {A} `{Truthy A} : Truthy (option A) :=
  λ o, match o with None => false | Some a => truthy a end.

(** ** Models

    Modelled from the spec: [app/models.py] is not part of the sources.  The
    attributes are those of the data model table (User: id, email, username,
    hashed_password; Order: id, user_id, instrument_id, type, date, volume,
    price; Summary: id, user_id; Portfolio: id, user_id; Asset: id,
    portfolio_id, instrument_id, ...; Instrument: id, symbol, ...). *)

Module User.
Record t := Build
  { id : Z;
    email : string;
    username : string;
    hashed_password : string }.

Definition with_username (new_username : string) (user : t) : t :=
  {| id := id user; email := email user;
     username := new_username; hashed_password := hashed_password user |}.

Definition with_hashed_password (digest : string) (user : t) : t :=
  {| id := id user; email := email user;
     username := username user; hashed_password := digest |}.

#[global] Instance eq_dec : EqDecision t.
Proof. solve_decision. Defined.
End User.

Module UserCreate.
Record t := Build
  { email : string;
    username : string;
    password : string }.
End UserCreate.

Module UserUpdate.
Record t := Build
  { username : option string;
    password : option string }.
End UserUpdate.

(** Orders, summaries, instruments, portfolios and assets are handled by the
    code through [getattr], [hasattr] and [setattr]: a mapped object is the
    finite map from its attribute names to their values. *)
Abbreviation Row := (gmap string pyval) (only parsing).
Abbreviation Order := (gmap string pyval) (only parsing).
Abbreviation Summary := (gmap string pyval) (only parsing).
Abbreviation Instrument := (gmap string pyval) (only parsing).

(** The payloads of the creations, by their fields. *)
Abbreviation OrderCreate := (gmap string pyval) (only parsing).
Abbreviation InstrumentBase := (gmap string pyval) (only parsing).

(** [model_dump(exclude_unset=True)] of an update payload: the dictionary of
    the fields the request set explicitly. *)
Abbreviation OrderUpdate := (gmap string pyval) (only parsing).
Abbreviation SummaryUpdate := (gmap string pyval) (only parsing).

Module UsersPublic.
Record t := Build { data : list User.t; count : Z }.
End UsersPublic.

Module OrdersPublic.
Record t := Build { data : list Order; count : Z }.
End OrdersPublic.

(** ** The store behind the session

    Tables keep their rows in storage order.  [user_id_seq] and
    [summary_id_seq] are the last values issued by the id sequences.  The
    constraints of the schema (keys, uniqueness, foreign keys) are declared
    with the models and are not enforced here: where a property needs one, it
    is a hypothesis on the store. *)
Record Store := MkStore
  { users : list User.t;
    user_id_seq : Z;
    instruments : list Instrument;
    orders : list Order;
    summaries : list Summary;
    summary_id_seq : Z;
    portfolios : list Row;
    assets : list Row }.

Definition with_users (f : list User.t → list User.t) (s : Store) : Store :=
  {| users := f (users s); user_id_seq := user_id_seq s;
     instruments := instruments s; orders := orders s;
     summaries := summaries s; summary_id_seq := summary_id_seq s;
     portfolios := portfolios s; assets := assets s |}.

Definition with_user_id_seq (n : Z) (s : Store) : Store :=
  {| users := users s; user_id_seq := n;
     instruments := instruments s; orders := orders s;
     summaries := summaries s; summary_id_seq := summary_id_seq s;
     portfolios := portfolios s; assets := assets s |}.

Definition with_instruments (f : list Instrument → list Instrument) (s : Store) : Store :=
  {| users := users s; user_id_seq := user_id_seq s;
     instruments := f (instruments s); orders := orders s;
     summaries := summaries s; summary_id_seq := summary_id_seq s;
     portfolios := portfolios s; assets := assets s |}.

Definition with_orders (f : list Order → list Order) (s : Store) : Store :=
  {| users := users s; user_id_seq := user_id_seq s;
     instruments := instruments s; orders := f (orders s);
     summaries := summaries s; summary_id_seq := summary_id_seq s;
     portfolios := portfolios s; assets := assets s |}.

Definition with_summaries (f : list Summary → list Summary) (s : Store) : Store :=
  {| users := users s; user_id_seq := user_id_seq s;
     instruments := instruments s; orders := orders s;
     summaries := f (summaries s); summary_id_seq := summary_id_seq s;
     portfolios := portfolios s; assets := assets s |}.

Definition with_summary_id_seq (n : Z) (s : Store) : Store :=
  {| users := users s; user_id_seq := user_id_seq s;
     instruments := instruments s; orders := orders s;
     summaries := summaries s; summary_id_seq := n;
     portfolios := portfolios s; assets := assets s |}.

(** ** Exceptions and the session monad *)

Inductive exn :=
| HTTPException (status_code : Z) (detail : string)
| AttributeError            (* attribute access on [None] *)
| UnmappedInstanceError     (* [session.delete(None)] *)
| DataError                 (* the engine rejects the statement *)
| IntegrityError            (* the engine refuses a write: a constraint of the schema *)
| UnboundLocalError.        (* a local variable read before assignment *)

Inductive outcome (A : Type) :=
| Return (a : A)
| Raise (e : exn).
Arguments Return {A} a.
Arguments Raise {A} e.

Definition Session (A : Type) : Type := Store → outcome A * Store.

#[global] Instance session_ret : MRet Session :=
  λ A a s, (Return a, s).

#[global] Instance session_bind : MBind Session :=
  λ A B f m s,
    match m s with
    | (Return a, s') => f a s'
    | (Raise e, s') => (Raise e, s')
    end.

#[global] Instance session_fmap : FMap Session :=
  λ A B f m, a ← m; mret (f a).

Definition raise {A} (e : exn) : Session A := λ s, (Raise e, s).
Definition read : Session Store := λ s, (Return s, s).
Definition modify (f : Store → Store) : Session unit := λ s, (Return (), f s).

(** [for x in xs: body(x)] *)
Fixpoint for_each {A} (xs : list A) (body : A → Session unit) : Session unit :=
  match xs with
  | [] => mret ()
  | x :: xs' => body x ;; for_each xs' body
  end.

(** The [if x:] test on an optional argument, with the value at hand in the
    true branch. *)
Definition if_truthy {A B} `{Truthy A} (x : option A) (then_ : A → B) (else_ : B) : B :=
  match x with
  | Some a => if truthy a then then_ a else else_
  | None => else_
  end.

(** ** Statements

    [select(T)] with its [where], [offset] and [limit] builders.  The
    where-clauses are applied before offset and limit, whatever the order of
    the builder calls. *)
Record Select (T : Type) := MkSelect
  { where_clauses : list (T → bool);
    offset_clause : option Z;
    limit_clause : option Z }.
Arguments MkSelect {T} _ _ _.
Arguments where_clauses {T} _.
Arguments offset_clause {T} _.
Arguments limit_clause {T} _.

Definition select {T} : Select T := MkSelect [] None None.

Definition where_ {T} (clause : T → bool) (st : Select T) : Select T :=
  MkSelect (where_clauses st ++ [clause]) (offset_clause st) (limit_clause st).

Definition offset_ {T} (n : Z) (st : Select T) : Select T :=
  MkSelect (where_clauses st) (Some n) (limit_clause st).

Definition limit_ {T} (n : Z) (st : Select T) : Select T :=
  MkSelect (where_clauses st) (offset_clause st) (Some n).

Definition matches {T} (st : Select T) (row : T) : bool :=
  forallb (λ clause, clause row) (where_clauses st).

(** An OFFSET or LIMIT is a 64-bit integer that is not negative. *)
Definition rejected (n : option Z) : bool :=
  match n with
  | Some z => (z <? 0)%Z || (2 ^ 63 <=? z)%Z
  | None => false
  end.

Definition paginate {T} (st : Select T) (rows : list T) : list T :=
  let rows := match offset_clause st with
              | Some n => drop (Z.to_nat n) rows
              | None => rows
              end in
  match limit_clause st with
  | Some n => take (Z.to_nat n) rows
  | None => rows
  end.

(** [session.exec(statement).all()] on a table.  The engine is PostgreSQL
    ([app/core/config.py]), which rejects an OFFSET or LIMIT that is negative
    or does not fit 64 bits. *)
Definition exec_all {T} (table : Store → list T) (st : Select T) : Session (list T) :=
  s ← read;
  if rejected (offset_clause st) || rejected (limit_clause st)
  then raise DataError
  else mret (paginate st (filter (λ row, matches st row) (table s))).

(** [session.exec(statement).first()] *)
Definition exec_first {T} (table : Store → list T) (st : Select T) : Session (option T) :=
  rows ← exec_all table st;
  mret (head rows).

(** [session.exec(select(func.count()).select_from(T)).one()] *)
Definition exec_count {T} (table : Store → list T) : Session Z :=
  s ← read;
  mret (Z.of_nat (length (table s))).

(** Column comparisons.  A comparison with a NULL column selects no row. *)
Definition col_eq (row : Row) (column : string) (value : pyval) : bool :=
  bool_decide (row !! column = Some value).

Definition col_ge (row : Row) (column : string) (d : datetime) : bool :=
  match row !! column with
  | Some (PDate t) => (timestamp d <=? timestamp t)%Z
  | _ => false
  end.

Definition col_le (row : Row) (column : string) (d : datetime) : bool :=
  match row !! column with
  | Some (PDate t) => (timestamp t <=? timestamp d)%Z
  | _ => false
  end.

(** [hasattr] and [setattr] on a mapped object. *)
Definition hasattr (obj : Row) (key : string) : bool :=
  bool_decide (is_Some (obj !! key)).

Definition setattr (obj : Row) (key : string) (value : pyval) : Row :=
  <[key := value]> obj.

(** The primary key of a row. *)
Definition pk (row : Row) : option pyval := row !! "id".

(** [session.delete(obj); session.commit()] on each table: the DELETE is by
    primary key. *)
Definition delete_row (obj : Row) (rows : list Row) : list Row :=
  filter (λ row, pk row ≠ pk obj) rows.

(** The UPDATE flushed by [session.commit()] for a modified object, by
    primary key, [obj] being the object as loaded and [obj'] as modified.  No
    statement is issued for an object whose attributes are as loaded.
    PostgreSQL writes the new version of a row behind the rows of the table:
    the scans of the code, which have no ORDER BY, return it last. *)
Definition update_row (obj obj' : Row) (rows : list Row) : list Row :=
  if decide (obj' = obj) then rows
  else filter (λ row, pk row ≠ pk obj) rows
       ++ ((λ _, obj') <$> filter (λ row, pk row = pk obj) rows).

Definition update_user_row (obj obj' : User.t) (rows : list User.t) : list User.t :=
  if decide (obj' = obj) then rows
  else filter (λ row, User.id row ≠ User.id obj) rows
       ++ ((λ _, obj') <$> filter (λ row, User.id row = User.id obj) rows).

(** ** The constraints of the schema

    Modelled from the spec: the tables are declared in [app/models.py], which
    is not part of the sources.  The data model gives the users a unique
    email and a unique username, the instruments a unique symbol, a user one
    summary and one portfolio, and it relates an order to its user and its
    instrument, a summary and a portfolio to their user, an asset to its
    portfolio and its instrument.  A write that breaks one of these is
    refused by the engine with an [IntegrityError] and stores nothing. *)

(** Unique email and username: a stored user holds one of them. *)
Definition email_or_username_taken (rows : list User.t) (u : User.t) : Prop :=
  Exists (λ v, User.email v = User.email u ∨ User.username v = User.username u) rows.

(** The same for an UPDATE, which does not compare a user with itself. *)
Definition taken_by_another (rows : list User.t) (u : User.t) : Prop :=
  Exists (λ v, User.id v ≠ User.id u
               ∧ (User.email v = User.email u ∨ User.username v = User.username u))
         rows.

(** Unique symbol. *)
Definition symbol_taken (rows : list Row) (db_obj : Row) : Prop :=
  Exists (λ i : Row, match db_obj !! "symbol" with
                     | Some (PStr symbol) => i !! "symbol" = Some (PStr symbol)
                     | _ => False
                     end) rows.

(** Foreign keys: the value of the column is the id of a stored row. *)
Definition user_stored (s : Store) (value : option pyval) : Prop :=
  Exists (λ u, value = Some (PInt (User.id u))) (users s).

Definition instrument_stored (s : Store) (value : option pyval) : Prop :=
  Exists (λ i : Row, match value with
                     | Some (PInt id) => pk i = Some (PInt id)
                     | _ => False
                     end) (instruments s).

(** Foreign keys, from the side of the row that is referred to: a row of
    [rows] holds the id of [target] in [column]. *)
Definition referred_to (column : string) (target : option pyval) (rows : list Row)
  : Prop :=
  Exists (λ row : Row, match target with
                       | Some (PInt id) => row !! column = Some (PInt id)
                       | _ => False
                       end) rows.

(** One summary a user. *)
Definition has_summary (s : Store) (user_id : Z) : Prop :=
  Exists (λ r : Row, r !! "user_id" = Some (PInt user_id)) (summaries s).

#[global] Instance email_or_username_taken_dec rows u :
  Decision (email_or_username_taken rows u).
Proof. unfold email_or_username_taken. apply _. Defined.

#[global] Instance taken_by_another_dec rows u : Decision (taken_by_another rows u).
Proof. unfold taken_by_another. apply _. Defined.

#[global] Instance symbol_taken_dec rows db_obj : Decision (symbol_taken rows db_obj).
Proof.
  unfold symbol_taken. apply Exists_dec. intros i.
  destruct (db_obj !! "symbol") as [[]|]; apply _.
Defined.

#[global] Instance user_stored_dec s value : Decision (user_stored s value).
Proof. unfold user_stored. apply _. Defined.

#[global] Instance instrument_stored_dec s value : Decision (instrument_stored s value).
Proof.
  unfold instrument_stored. apply Exists_dec. intros i.
  destruct value as [[]|]; apply _.
Defined.

#[global] Instance referred_to_dec column target rows :
  Decision (referred_to column target rows).
Proof.
  unfold referred_to. apply Exists_dec. intros row.
  destruct target as [[]|]; apply _.
Defined.

#[global] Instance has_summary_dec s user_id : Decision (has_summary s user_id).
Proof. unfold has_summary. apply _. Defined.

(** Modelled from the spec: the relationship [user.orders] is declared in
    [app/models.py]; a user owns the orders whose [user_id] is the user's id,
    and they are loaded when the attribute is read. *)
Definition User_orders (user : User.t) : Session (list Order) :=
  exec_all orders (where_ (λ o, col_eq o "user_id" (PInt (User.id user))) select).

(** Attribute access on the result of a lookup, which may be [None]. *)
Definition getattr_email (user : option User.t) : Session string :=
  match user with
  | Some u => mret (User.email u)
  | None => raise AttributeError
  end.

(** [session.add(db_obj); session.commit(); session.refresh(db_obj)] for an
    object of a table whose id sequence the store does not hold: the INSERT
    takes the id of the object when it has one, and otherwise the id that the
    sequence issues, here [issued_id]. *)
Definition refresh_id (issued_id : Z) (db_obj : Row) : Row :=
  match db_obj !! "id" with
  | None | Some PNone => <["id" := PInt issued_id]> db_obj
  | Some _ => db_obj
  end.

(** [session.commit()] with a modified user: the UPDATE is refused when
    another user holds the email or the username. *)
Definition commit_user (obj obj' : User.t) : Session unit :=
  s ← read;
  if decide (obj' ≠ obj ∧ taken_by_another (users s) obj')
  then raise IntegrityError
  else modify (with_users (update_user_row obj obj')).

(** ** The values that come back

    [session.refresh] gives an object the values that the engine stored.
    Integers, strings and dates come back as they were written; a float comes
    back as the driver and the engine carried it (-0.0 comes back as 0.0),
    which is a capability of theirs, as the hashing is one of the security
    module. *)
Class Engine := MkEngine
  { stored_float : Z → Z }.

Definition stored `{Engine} (value : pyval) : pyval :=
  match value with
  | PFloat bits => PFloat (stored_float bits)
  | _ => value
  end.

(** ** Security

    Modelled from the spec: [app/core/security.py] is not part of the
    sources; password hashing is the opaque capability
    [hash(password) -> digest], [verify(password, digest) -> bool]. *)
Class Security := MkSecurity
  { get_password_hash : string → string;
    verify_password : string → string → bool }.

(** ** [app/crud.py] *)

Module crud.
Section crud.
Context {security : Security} {engine : Engine}.

(** *** User operations *)

(** [User.model_validate(user_create, update={"hashed_password": ...})],
    then [add], [commit], which the engine refuses when the email or the
    username is held by a stored user, and [refresh], which brings the
    generated id. *)
Definition create_user (user_create : UserCreate.t) : Session User.t :=
  s ← read;
  let db_obj :=
    {| User.id := (user_id_seq s + 1)%Z;
       User.email := UserCreate.email user_create;
       User.username := UserCreate.username user_create;
       User.hashed_password := get_password_hash (UserCreate.password user_create) |} in
  (* The INSERT takes the next id of the sequence, also when it is refused. *)
  modify (with_user_id_seq (User.id db_obj)) ;;
  if decide (email_or_username_taken (users s) db_obj)
  then raise IntegrityError
  else modify (with_users (.++ [db_obj])) ;; mret db_obj.

Definition get_user_by_email (email : string) : Session (option User.t) :=
  let statement := where_ (λ u, bool_decide (User.email u = email)) select in
  session_user ← exec_first users statement;
  mret session_user.

Definition get_user_by_username (username : string) : Session (option User.t) :=
  let statement := where_ (λ u, bool_decide (User.username u = username)) select in
  session_user ← exec_first users statement;
  mret session_user.

Definition get_user_by_id (id : Z) : Session (option User.t) :=
  let statement := where_ (λ u, bool_decide (User.id u = id)) select in
  session_user ← exec_first users statement;
  mret session_user.

(** With a false [email] the lookup is by [username]; [username=None]
    compares the column with NULL and selects no row. *)
Definition authenticate (email username : option string) (password : string)
  : Session (option User.t) :=
  db_user ← if_truthy email
              (λ email, get_user_by_email email)
              (match username with
               | Some username => get_user_by_username username
               | None => mret None
               end);
  match db_user with
  | None => mret None
  | Some db_user =>
      if negb (verify_password password (User.hashed_password db_user))
      then mret None
      else mret (Some db_user)
  end.

(** [user.username = new_username] on the result of the lookup, which is
    [None] when no user has this email. *)
Definition change_username (email new_username : string) : Session User.t :=
  user ← get_user_by_email email;
  match user with
  | None => raise AttributeError
  | Some user =>
      let user' := User.with_username new_username user in
      commit_user user user' ;;
      mret user'
  end.

Definition change_password (email new_password : string) : Session User.t :=
  user ← get_user_by_email email;
  match user with
  | None => raise AttributeError
  | Some user =>
      let user' := User.with_hashed_password (get_password_hash new_password) user in
      commit_user user user' ;;
      mret user'
  end.

(** The DELETE is refused while an order, a summary or a portfolio refers to
    the user. *)
Definition delete_user (user : User.t) : Session unit :=
  (* Delete user. *)
  s ← read;
  if decide (referred_to "user_id" (Some (PInt (User.id user)))
               (orders s ++ summaries s ++ portfolios s))
  then raise IntegrityError
  else modify (with_users (filter (λ u, User.id u ≠ User.id user))).

(** *** Instrument operations *)

(** [Instrument.model_validate(instrument_create)], then [add], [commit],
    which the engine refuses when a stored instrument has the symbol, and
    [refresh]. *)
Definition create_instrument (issued_id : Z) (instrument_create : InstrumentBase)
  : Session Instrument :=
  s ← read;
  let db_obj := refresh_id issued_id (stored <$> instrument_create) in
  if decide (symbol_taken (instruments s) db_obj)
  then raise IntegrityError
  else modify (with_instruments (.++ [db_obj])) ;; mret db_obj.

Definition get_instrument_by_symbol (symbol : string) : Session (option Instrument) :=
  let statement := where_ (λ i, col_eq i "symbol" (PStr symbol)) select in
  session_instrument ← exec_first instruments statement;
  mret session_instrument.

Definition get_instrument_by_id (id : Z) : Session (option Instrument) :=
  let statement := where_ (λ i, col_eq i "id" (PInt id)) select in
  session_instrument ← exec_first instruments statement;
  mret session_instrument.

(** The four prices are floats, given by their bit patterns; the instrument
    returned holds them as [session.refresh] reloads them. *)
Definition update_instrument_prices (instrument : Instrument) (open high low close : Z)
  : Session Instrument :=
  (* Update prices. *)
  let instrument' :=
    setattr (setattr (setattr (setattr instrument "open" (stored (PFloat open)))
                        "high" (stored (PFloat high))) "low" (stored (PFloat low)))
            "close" (stored (PFloat close)) in
  (* Commit to db. *)
  modify (with_instruments (update_row instrument instrument')) ;;
  mret instrument'.

Definition update_instrument_currency (instrument : Instrument) (currency : string)
  : Session Instrument :=
  let instrument' := setattr instrument "currency" (stored (PStr currency)) in
  modify (with_instruments (update_row instrument instrument')) ;;
  mret instrument'.

(** The DELETE is refused while an order or an asset refers to the
    instrument. *)
Definition delete_instrument (instrument : Instrument) : Session unit :=
  (* Delete instrument. *)
  s ← read;
  if decide (referred_to "instrument_id" (pk instrument) (orders s ++ assets s))
  then raise IntegrityError
  else modify (with_instruments (delete_row instrument)).

(** *** Order operations *)

(** [Order.model_validate(order_create, update={"user_id": user_id})], then
    [add], [commit], which the engine refuses unless the user and the
    instrument of the order are stored, and [refresh]. *)
Definition create_order (issued_id : Z) (user_id : Z) (order_create : OrderCreate)
  : Session Order :=
  s ← read;
  let db_obj :=
    refresh_id issued_id (stored <$> <["user_id" := PInt user_id]> order_create) in
  if decide (user_stored s (db_obj !! "user_id")
             ∧ instrument_stored s (db_obj !! "instrument_id"))
  then modify (with_orders (.++ [db_obj])) ;; mret db_obj
  else raise IntegrityError.


Definition get_orders (user_id : Z) (instrument_id : option Z)
    (start_date end_date : option datetime) (type : option string)
  : Session OrdersPublic.t :=
  let statement := where_ (λ o, col_eq o "user_id" (PInt user_id)) select in
  let statement :=
    if_truthy instrument_id
      (λ instrument_id, where_ (λ o, col_eq o "instrument_id" (PInt instrument_id)) statement)
      statement in
  let statement :=
    if_truthy start_date
      (λ start_date, where_ (λ o, col_ge o "date" start_date) statement)
      statement in
  let statement :=
    if_truthy end_date
      (λ end_date, where_ (λ o, col_le o "date" end_date) statement)
      statement in
  let statement :=
    if_truthy type
      (λ type, where_ (λ o, col_eq o "type" (PStr type)) statement)
      statement in
  results ← exec_all orders statement;
  mret (OrdersPublic.Build results (Z.of_nat (length results))).

Definition get_order_by_id (order_id : Z) : Session (option Order) :=
  let statement := where_ (λ o, col_eq o "id" (PInt order_id)) select in
  db_obj ← exec_first orders statement;
  mret db_obj.

(** [for key, value in update_dict.items(): if hasattr(obj, key):
    setattr(obj, key, value)] *)
Definition apply_update (obj : Row) (update_dict : gmap string pyval) : Row :=
  map_fold (λ key value obj, if hasattr obj key then setattr obj key value else obj)
           obj update_dict.

(** The order returned is the order as [session.refresh] reloads it: the
    attributes that were set hold the values as the engine stored them. *)
Definition update_order (order : Order) (order_update : OrderUpdate) : Session Order :=
  let update_dict := order_update in
  let order' := apply_update order (stored <$> update_dict) in
  modify (with_orders (update_row order order')) ;;
  mret order'.

Definition delete_order (order : Order) : Session unit :=
  modify (with_orders (delete_row order)).

(** *** Summary operations *)

(** [Summary(user=user)], then [add], [commit], which the engine refuses
    unless the user is stored and has no summary yet, and [refresh]. *)
Definition create_summary (user : User.t) : Session Summary :=
  s ← read;
  let db_obj : Summary :=
    {[ "id" := PInt (summary_id_seq s + 1); "user_id" := PInt (User.id user) ]} in
  (* The INSERT takes the next id of the sequence, also when it is refused. *)
  modify (with_summary_id_seq (summary_id_seq s + 1)) ;;
  if decide (user_stored s (Some (PInt (User.id user)))
             ∧ ¬ has_summary s (User.id user))
  then modify (with_summaries (.++ [db_obj])) ;; mret db_obj
  else raise IntegrityError.

Definition get_summary_by_id (summary_id : Z) : Session (option Summary) :=
  let statement := where_ (λ r, col_eq r "id" (PInt summary_id)) select in
  db_obj ← exec_first summaries statement;
  mret db_obj.

Definition get_summary_by_user_id (user_id : Z) : Session (option Summary) :=
  let column := "user_id" in
  let statement := where_ (λ r, col_eq r column (PInt user_id)) select in
  db_obj ← exec_first summaries statement;
  mret db_obj.

Definition update_summary (summary : Summary) (summary_update : SummaryUpdate)
  : Session Summary :=
  let update_dict := summary_update in
  let summary' := apply_update summary (stored <$> update_dict) in
  modify (with_summaries (update_row summary summary')) ;;
  mret summary'.

(** The route hands over the result of a lookup: [summary] may be [None],
    which [session.delete] refuses. *)
Definition delete_summary (summary : option Summary) : Session unit :=
  match summary with
  | None => raise UnmappedInstanceError
  | Some summary => modify (with_summaries (delete_row summary))
  end.

End crud.
End crud.

(** ** [app/api/routes/users.py] *)

Module routes.
Section routes.
Context {security : Security} {engine : Engine}.

Definition get_users (skip limit : Z) (email username : option string)
  : Session UsersPublic.t :=
  (* Counts all users, independent of what users returned. *)
  count ← exec_count users;
  (* Statement for returning users. *)
  let statement := limit_ limit (offset_ skip select) in
  let statement :=
    if_truthy email
      (λ email, where_ (λ u, bool_decide (User.email u = email)) statement)
      (if_truthy username
         (λ username, where_ (λ u, bool_decide (User.username u = username)) statement)
         statement) in
  users ← exec_all users statement;
  mret (UsersPublic.Build users count).

Definition create_user (user_in : UserCreate.t) : Session User.t :=
  user ← crud.get_user_by_email (UserCreate.email user_in);
  match user with
  | Some _ =>
      raise (HTTPException 400 "The user with this email already exists in the system.")
  | None =>
      user ← crud.create_user user_in;
      (* Create summary for user. *)
      crud.create_summary user ;;
      mret user
  end.

Definition get_user_by_id (user_id : Z) : Session User.t :=
  user ← crud.get_user_by_id user_id;
  match user with
  | None => raise (HTTPException 400 "No user exists with this id.")
  | Some user => mret user
  end.

(** [updated_user] is assigned in the branches only; [user] is the result of
    the lookup as it is, [None] included. *)
Definition update_user (user_id : Z) (data : UserUpdate.t) : Session User.t :=
  (* Get user to update. *)
  user ← crud.get_user_by_id user_id;
  if negb (truthy (UserUpdate.username data)) && negb (truthy (UserUpdate.password data))
  then raise (HTTPException 400 "No user details to update.")
  else
    updated_user ←
      if_truthy (UserUpdate.username data)
        (λ new_username,
           email ← getattr_email user;
           Some <$> crud.change_username email new_username)
        (mret None);
    updated_user ←
      if_truthy (UserUpdate.password data)
        (λ new_password,
           email ← getattr_email user;
           Some <$> crud.change_password email new_password)
        (mret updated_user);
    match updated_user with
    | Some updated_user => mret updated_user
    | None => raise UnboundLocalError
    end.

Definition delete_user (user_id : Z) : Session User.t :=
  user ← crud.get_user_by_id user_id;
  match user with
  | None => raise (HTTPException 400 "Unable to find user with id.")
  | Some user =>
      (* Delete any orders. *)
      orders ← User_orders user;
      for_each orders crud.delete_order ;;
      (* Delete corresponding summary. *)
      summary ← crud.get_summary_by_user_id user_id;
      crud.delete_summary summary ;;
      crud.delete_user user ;;
      mret user
  end.

End routes.
End routes.

(** ** The responses and effects of the routes, named *)

Definition conflict : exn :=
  HTTPException 400 "The user with this email already exists in the system.".

Definition no_details : exn :=
  HTTPException 400 "No user details to update.".

Definition not_found : exn :=
  HTTPException 400 "Unable to find user with id.".

Section effects.
Context {security : Security} {engine : Engine}.
Implicit Types (s : Store) (user_in : UserCreate.t).

(** The user and the summary that [POST /users] stores. *)
Definition new_user s user_in : User.t :=
  {| User.id := user_id_seq s + 1;
     User.email := UserCreate.email user_in;
     User.username := UserCreate.username user_in;
     User.hashed_password := get_password_hash (UserCreate.password user_in) |}.

Definition new_summary s (user : User.t) : Summary :=
  {[ "id" := PInt (summary_id_seq s + 1); "user_id" := PInt (User.id user) ]}.

Definition after_signup s user_in : Store :=
  {| users := users s ++ [new_user s user_in];
     user_id_seq := user_id_seq s + 1;
     instruments := instruments s;
     orders := orders s;
     summaries := summaries s ++ [new_summary s (new_user s user_in)];
     summary_id_seq := summary_id_seq s + 1;
     portfolios := portfolios s;
     assets := assets s |}.

End effects.

(** The uniqueness of emails that the data model asks of the users table. *)
Definition unique_emails (s : Store) : Prop :=
  ∀ u v, u ∈ users s → v ∈ users s → User.email u = User.email v → u = v.

(** The statement of [get_users]: the rows it selects, by the truth of the
    two filters. *)
Definition users_selected (email username : option string) (u : User.t) : Prop :=
  if truthy email then Some (User.email u) = email
  else if truthy username then Some (User.username u) = username
  else True.

#[global] Instance users_selected_dec email username u :
  Decision (users_selected email username u).
Proof. unfold users_selected. repeat case_match; apply _. Defined.


(** The statement of [get_orders]: the clauses it holds, by the truth of the
    filters. *)
Definition orders_selected (user_id : Z) (instrument_id : option Z)
    (start_date end_date : option datetime) (type : option string) (o : Order) : bool :=
  col_eq o "user_id" (PInt user_id)
  && (if_truthy instrument_id (λ i, col_eq o "instrument_id" (PInt i)) true
  && (if_truthy start_date (λ d, col_ge o "date" d) true
  && (if_truthy end_date (λ d, col_le o "date" d) true
  && if_truthy type (λ t, col_eq o "type" (PStr t)) true))).


(** What [.first()] returns for the rows [l] and a where-clause [P]: the
    first row that satisfies it, or [None] when no row does. *)
Definition first_match {T} (P : T → Prop) (l : list T) (r : option T) : Prop :=
  match r with
  | Some x => P x ∧ ∃ l1 l2, l = l1 ++ x :: l2 ∧ ∀ y, y ∈ l1 → ¬ P y
  | None => ∀ y, y ∈ l → ¬ P y
  end.

(** The ids of the stored users were issued by the sequence. *)
Definition user_ids_issued (s : Store) : Prop :=
  ∀ u, u ∈ users s → (User.id u ≤ user_id_seq s)%Z.

(** The row belongs to a stored user, through its [user_id]. *)
Definition owned_by_stored_user (s : Store) (row : Row) : Prop :=
  ∃ u, u ∈ users s ∧ row !! "user_id" = Some (PInt (User.id u)).

(** The integrity of the data model, as far as the user routes are
    concerned: issued ids and unique emails for the users, an owner for every
    order and every summary, one summary a user at most. *)
Record integrity (s : Store) : Prop := MkIntegrity
  { integrity_ids : user_ids_issued s;
    integrity_emails : unique_emails s;
    integrity_orders : ∀ o : Row, o ∈ orders s → owned_by_stored_user s o;
    integrity_summaries : ∀ r : Row, r ∈ summaries s → owned_by_stored_user s r;
    integrity_one_summary :
      ∀ r r' : Row, r ∈ summaries s → r' ∈ summaries s →
                    r !! "user_id" = r' !! "user_id" → r = r' }.

(** The store after the orders of a user are deleted, as
    [DELETE /users/{user_id}] does first. *)
Definition without_orders_of (user : User.t) (s : Store) : Store :=
  with_orders
    (λ rows, foldl (λ rows o, delete_row o rows) rows
               (filter (λ o : Row, o !! "user_id" = Some (PInt (User.id user))) (orders s)))
    s.

(** The ids of the stored summaries were issued by the sequence. *)
Definition summary_ids_issued (s : Store) : Prop :=
  ∀ r : Row, r ∈ summaries s →
    ∃ n, r !! "id" = Some (PInt n) ∧ (n ≤ summary_id_seq s)%Z.

(** ** Fixtures for the worked examples *)

(** A transparent stand-in for the hashing capability. *)
Definition test_security : Security :=
  {| get_password_hash p := "hashed:" +:+ p;
     verify_password p d := bool_decide (d = "hashed:" +:+ p) |}.

(** The floats come back as written, -0.0 apart, which comes back as 0.0. *)
Definition test_engine : Engine :=
  {| stored_float bits := if (bits =? 2 ^ 63)%Z then 0%Z else bits |}.

Definition empty_store : Store := MkStore [] 0 [] [] [] 0 [] [].

Definition alice : User.t :=
  {| User.id := 1; User.email := "a@x.com";
     User.username := "a"; User.hashed_password := "hashed:p" |}.

Definition alice_signup : UserCreate.t :=
  {| UserCreate.email := "a@x.com"; UserCreate.username := "a";
     UserCreate.password := "p" |}.

(** The store after [POST /users] of [alice_signup] on the empty store. *)
Definition alice_store : Store :=
  {| users := [alice]; user_id_seq := 1;
     instruments := []; orders := [];
     summaries := [ {[ "id" := PInt 1; "user_id" := PInt 1 ]} ];
     summary_id_seq := 1;
     portfolios := []; assets := [] |}.

(** Two instruments; the prices are the floats 0.0. *)
Definition apple : Instrument :=
  {[ "id" := PInt 3; "symbol" := PStr "AAPL"; "currency" := PStr "USD";
     "open" := PFloat 0; "high" := PFloat 0; "low" := PFloat 0; "close" := PFloat 0 ]}.

Definition microsoft : Instrument :=
  {[ "id" := PInt 4; "symbol" := PStr "MSFT"; "currency" := PStr "USD";
     "open" := PFloat 0; "high" := PFloat 0; "low" := PFloat 0; "close" := PFloat 0 ]}.

(** Two orders of the user 1, with every column of an order; the volume and
    the price are the float 1.0. *)
Definition alice_order : Order :=
  {[ "id" := PInt 7; "user_id" := PInt 1; "instrument_id" := PInt 3;
     "type" := PStr "BUY"; "date" := PDate (Datetime 100);
     "volume" := PFloat 4607182418800017408; "price" := PFloat 4607182418800017408 ]}.

Definition alice_second_order : Order :=
  {[ "id" := PInt 8; "user_id" := PInt 1; "instrument_id" := PInt 4;
     "type" := PStr "SELL"; "date" := PDate (Datetime 200);
     "volume" := PFloat 4607182418800017408; "price" := PFloat 4607182418800017408 ]}.

(** A user created through [crud.create_user] alone, with one order: no
    summary row. *)
Definition alice_without_summary : Store :=
  {| users := [alice]; user_id_seq := 1;
     instruments := [apple]; orders := [alice_order];
     summaries := []; summary_id_seq := 0;
     portfolios := []; assets := [] |}.

Definition alice_portfolio : Row :=
  {[ "id" := PInt 1; "user_id" := PInt 1 ]}.

Definition alice_asset : Row :=
  {[ "id" := PInt 1; "portfolio_id" := PInt 1; "instrument_id" := PInt 3 ]}.

(** [alice_store] with a portfolio of the user holding one asset. *)
Definition alice_with_portfolio : Store :=
  {| users := [alice]; user_id_seq := 1;
     instruments := [apple]; orders := [];
     summaries := [ {[ "id" := PInt 1; "user_id" := PInt 1 ]} ];
     summary_id_seq := 1;
     portfolios := [alice_portfolio]; assets := [alice_asset] |}.

(** An update payload that sets [type], sets [price] to the float -0.0, and
    sets a field [note] that an order does not have. *)
Definition alice_order_update : OrderUpdate :=
  {[ "type" := PStr "SELL"; "note" := PStr "x";
     "price" := PFloat 9223372036854775808 ]}.

(** The payload of an order on the instrument 4. *)
Definition order_payload : OrderCreate :=
  {[ "instrument_id" := PInt 4; "type" := PStr "BUY"; "date" := PDate (Datetime 300);
     "volume" := PFloat 4607182418800017408; "price" := PFloat 4607182418800017408 ]}.

Definition bob : User.t :=
  {| User.id := 2; User.email := "b@x.com";
     User.username := "b"; User.hashed_password := "hashed:q" |}.

(** Two users and two instruments; the first user has two orders, on the
    instruments 3 and 4. *)
Definition two_users : Store :=
  {| users := [alice; bob]; user_id_seq := 2;
     instruments := [apple; microsoft];
     orders := [alice_order; alice_second_order];
     summaries := []; summary_id_seq := 0;
     portfolios := []; assets := [] |}.

(** * Properties *)

(** ** Running the session monad *)

Lemma run_ret {A} (a : A) (s : Store) : (mret a : Session A) s = (Return a, s).
Proof. reflexivity. Qed.

Lemma run_bind {A B} (m : Session A) (f : A → Session B) (s : Store) :
  ((m ≫= f) : Session B) s = match m s with
               | (Return a, s') => f a s'
               | (Raise e, s') => (Raise e, s')
               end.
Proof. reflexivity. Qed.

Lemma run_fmap {A B} (f : A → B) (m : Session A) (s : Store) :
  ((f <$> m) : Session B) s = match m s with
                | (Return a, s') => (Return (f a), s')
                | (Raise e, s') => (Raise e, s')
                end.
Proof.
  unfold fmap, session_fmap. rewrite run_bind. by destruct (m s) as [[a|e] s'].
Qed.

Lemma run_raise {A} (e : exn) (s : Store) : raise (A := A) e s = (Raise e, s).
Proof. reflexivity. Qed.

Lemma run_read (s : Store) : read s = (Return s, s).
Proof. reflexivity. Qed.

Lemma run_modify (f : Store → Store) (s : Store) : modify f s = (Return (), f s).
Proof. reflexivity. Qed.

(** ** Running statements *)

Section statements.
Context {T : Type}.
Implicit Types (table : Store → list T) (st : Select T) (s : Store).

Lemma matches_where (clause : T → bool) st row :
  matches (where_ clause st) row = matches st row && clause row.
Proof.
  unfold matches, where_; simpl.
  rewrite forallb_app; simpl. by rewrite andb_true_r.
Qed.

Lemma matches_select (row : T) : matches select row = true.
Proof. done. Qed.

Lemma exec_all_unpaginated table st s :
  offset_clause st = None → limit_clause st = None →
  exec_all table st s = (Return (filter (λ row, matches st row) (table s)), s).
Proof.
  intros Ho Hl. unfold exec_all, paginate.
  rewrite Ho, Hl. reflexivity.
Qed.

Lemma exec_all_where table (clause : T → bool) s :
  exec_all table (where_ clause select) s
  = (Return (filter (λ row, clause row) (table s)), s).
Proof.
  rewrite exec_all_unpaginated by done.
  do 2 f_equal. apply list_filter_iff; intros row.
  by rewrite matches_where, matches_select.
Qed.

Lemma exec_first_where table (clause : T → bool) s :
  exec_first table (where_ clause select) s
  = (Return (head (filter (λ row, clause row) (table s))), s).
Proof.
  unfold exec_first. by rewrite run_bind, exec_all_where.
Qed.

Lemma head_filter_None (P : T → Prop) `{!∀ x, Decision (P x)} (l : list T) :
  (∀ x, x ∈ l → ¬ P x) → head (filter P l) = None.
Proof.
  intros Hl. apply head_None.
  induction l as [|x l IH]; [done|].
  rewrite filter_cons_False by (apply Hl; left).
  apply IH; intros y Hy. apply Hl. by right.
Qed.

Lemma head_filter_is_Some (P : T → Prop) `{!∀ x, Decision (P x)} (l : list T) x :
  x ∈ l → P x → is_Some (head (filter P l)).
Proof.
  intros Hx HP. apply head_is_Some.
  intros Hnil. assert (x ∈ filter P l) as Hin by by apply list_elem_of_filter.
  rewrite Hnil in Hin. by apply elem_of_nil in Hin.
Qed.

Lemma head_filter_unique (P : T → Prop) `{!∀ x, Decision (P x)} (l : list T) x :
  x ∈ l → P x → (∀ y, y ∈ l → P y → y = x) → head (filter P l) = Some x.
Proof.
  intros Hx HP Huniq.
  destruct (head_filter_is_Some P l x Hx HP) as [v Hv].
  rewrite Hv. f_equal.
  apply head_Some_elem_of, list_elem_of_filter in Hv as [HPv Hvl]. by apply Huniq.
Qed.

End statements.

(** ** Truth values *)

Section truth.

Lemma str_truthy_spec (x : string) : truthy x = true ↔ x ≠ "".
Proof.
  unfold truthy, str_truthy. rewrite negb_true_iff. apply String.eqb_neq.
Qed.

Lemma if_truthy_true {A B} `{Truthy A} (a : A) (then_ : A → B) (else_ : B) :
  truthy a = true → if_truthy (Some a) then_ else_ = then_ a.
Proof. intros Ha. unfold if_truthy. by rewrite Ha. Qed.

Lemma if_truthy_false {A B} `{Truthy A} (x : option A) (then_ : A → B) (else_ : B) :
  truthy x = false → if_truthy x then_ else_ = else_.
Proof.
  destruct x as [a|]; [|done]. unfold if_truthy, truthy at 1, optional_truthy.
  by intros ->.
Qed.

Lemma truthy_Some_inv {A} `{Truthy A} (x : option A) :
  truthy x = true → ∃ a, x = Some a ∧ truthy a = true.
Proof. destruct x as [a|]; [by exists a | done]. Qed.

Lemma if_truthy_None {A B} `{Truthy A} (then_ : A → B) (else_ : B) :
  if_truthy None then_ else_ = else_.
Proof. reflexivity. Qed.

End truth.

(** ** Rows rewritten by an UPDATE: the other rows, then the row updated *)

Section moved.
Context {A K : Type} `{!EqDecision K} (key : A → K).
Implicit Types (l : list A) (c : A) (k : K).

Lemma filter_const_fmap (P : A → Prop) `{!∀ x, Decision (P x)} {B} c (l : list B) :
  filter P ((λ _, c) <$> l) = if decide (P c) then (λ _, c) <$> l else [].
Proof.
  induction l as [|b l IH]; [by destruct (decide _)|].
  rewrite fmap_cons. destruct (decide (P c)) as [HP|HP].
  - by rewrite filter_cons_True, IH.
  - by rewrite filter_cons_False, IH.
Qed.

Lemma filter_key_ne_eq k l :
  filter (λ x, key x = k) (filter (λ x, key x ≠ k) l) = [].
Proof.
  induction l as [|x l IH]; [done|].
  destruct (decide (key x = k)) as [Hx|Hx].
  - by rewrite (filter_cons_False (λ x, key x ≠ k)) by tauto.
  - rewrite (filter_cons_True (λ x, key x ≠ k)) by done.
    by rewrite filter_cons_False.
Qed.

Lemma filter_key_ne_ne k l :
  filter (λ x, key x ≠ k) (filter (λ x, key x ≠ k) l) = filter (λ x, key x ≠ k) l.
Proof.
  induction l as [|x l IH]; [done|].
  destruct (decide (key x = k)) as [Hx|Hx].
  - by rewrite (filter_cons_False (λ x, key x ≠ k)) by tauto.
  - rewrite (filter_cons_True (λ x, key x ≠ k)) by done.
    by rewrite filter_cons_True, IH.
Qed.

Lemma moved_filter_ne {B} k c l (l' : list B) :
  key c = k →
  filter (λ x, key x ≠ k) (filter (λ x, key x ≠ k) l ++ ((λ _, c) <$> l'))
  = filter (λ x, key x ≠ k) l.
Proof.
  intros Hc. rewrite filter_app, filter_key_ne_ne, filter_const_fmap.
  rewrite decide_False by tauto. apply app_nil_r.
Qed.

Lemma moved_filter_eq {B} k c l (l' : list B) :
  key c = k →
  filter (λ x, key x = k) (filter (λ x, key x ≠ k) l ++ ((λ _, c) <$> l'))
  = (λ _, c) <$> l'.
Proof.
  intros Hc. rewrite filter_app, filter_key_ne_eq, filter_const_fmap.
  by rewrite decide_True.
Qed.

Lemma head_filter_moved (P : A → Prop) `{!∀ x, Decision (P x)} k c c' l :
  c ∈ l → key c = k → P c' →
  (∀ x, x ∈ l → key x ≠ k → ¬ P x) →
  head (filter P (filter (λ x, key x ≠ k) l
                  ++ ((λ _, c') <$> filter (λ x, key x = k) l))) = Some c'.
Proof.
  intros Hin Hk HP Hother. apply head_filter_unique; [| done |].
  - apply elem_of_app; right. apply list_elem_of_fmap. exists c.
    split; [done|]. by apply list_elem_of_filter.
  - intros y [Hy | (x & -> & _)%list_elem_of_fmap]%elem_of_app HPy; [|done].
    apply list_elem_of_filter in Hy as [Hne Hy]. by destruct (Hother y Hy Hne).
Qed.

End moved.

(** ** The lookups of the data-access layer *)

Section lookups.
Implicit Types (s : Store).

Lemma get_user_by_email_run email s :
  crud.get_user_by_email email s
  = (Return (head (filter (λ u, User.email u = email) (users s))), s).
Proof.
  unfold crud.get_user_by_email. rewrite run_bind, exec_first_where, run_ret. do 3 f_equal.
  apply list_filter_iff; intros u. apply bool_decide_spec.
Qed.

Lemma get_user_by_username_run username s :
  crud.get_user_by_username username s
  = (Return (head (filter (λ u, User.username u = username) (users s))), s).
Proof.
  unfold crud.get_user_by_username. rewrite run_bind, exec_first_where, run_ret. do 3 f_equal.
  apply list_filter_iff; intros u. apply bool_decide_spec.
Qed.

Lemma get_user_by_id_run id s :
  crud.get_user_by_id id s
  = (Return (head (filter (λ u, User.id u = id) (users s))), s).
Proof.
  unfold crud.get_user_by_id. rewrite run_bind, exec_first_where, run_ret. do 3 f_equal.
  apply list_filter_iff; intros u. apply bool_decide_spec.
Qed.

Lemma col_eq_spec (row : Row) column value :
  col_eq row column value ↔ row !! column = Some value.
Proof. unfold col_eq. apply bool_decide_spec. Qed.

Lemma get_instrument_by_symbol_run symbol s :
  crud.get_instrument_by_symbol symbol s
  = (Return (head (filter (λ i : Row, i !! "symbol" = Some (PStr symbol)) (instruments s))), s).
Proof.
  unfold crud.get_instrument_by_symbol. rewrite run_bind, exec_first_where, run_ret. do 3 f_equal.
  apply list_filter_iff; intros i. apply col_eq_spec.
Qed.

Lemma get_instrument_by_id_run id s :
  crud.get_instrument_by_id id s
  = (Return (head (filter (λ i : Row, i !! "id" = Some (PInt id)) (instruments s))), s).
Proof.
  unfold crud.get_instrument_by_id. rewrite run_bind, exec_first_where, run_ret. do 3 f_equal.
  apply list_filter_iff; intros i. apply col_eq_spec.
Qed.

Lemma get_order_by_id_run order_id s :
  crud.get_order_by_id order_id s
  = (Return (head (filter (λ o : Row, o !! "id" = Some (PInt order_id)) (orders s))), s).
Proof.
  unfold crud.get_order_by_id. rewrite run_bind, exec_first_where, run_ret. do 3 f_equal.
  apply list_filter_iff; intros i. apply col_eq_spec.
Qed.

Lemma get_summary_by_id_run summary_id s :
  crud.get_summary_by_id summary_id s
  = (Return (head (filter (λ r : Row, r !! "id" = Some (PInt summary_id)) (summaries s))), s).
Proof.
  unfold crud.get_summary_by_id. rewrite run_bind, exec_first_where, run_ret. do 3 f_equal.
  apply list_filter_iff; intros i. apply col_eq_spec.
Qed.

Lemma get_summary_by_user_id_run user_id s :
  crud.get_summary_by_user_id user_id s
  = (Return (head (filter (λ r : Row, r !! "user_id" = Some (PInt user_id)) (summaries s))), s).
Proof.
  unfold crud.get_summary_by_user_id. rewrite run_bind, exec_first_where, run_ret. do 3 f_equal.
  apply list_filter_iff; intros i. apply col_eq_spec.
Qed.

Lemma User_orders_run user s :
  User_orders user s
  = (Return (filter (λ o : Row, o !! "user_id" = Some (PInt (User.id user))) (orders s)), s).
Proof.
  unfold User_orders. rewrite exec_all_where. do 2 f_equal.
  apply list_filter_iff; intros o. apply col_eq_spec.
Qed.

End lookups.

Section absence.
Context {security : Security} {engine : Engine}.
Implicit Types (s : Store).

(** C3, as the code has it: every lookup of the data-access layer
    ([get_user_by_email], [get_user_by_username], [get_user_by_id],
    [get_instrument_by_symbol], [get_instrument_by_id], [get_order_by_id],
    [get_summary_by_id], [get_summary_by_user_id]) and [authenticate], given
    an identifier that matches no stored row, returns [None], raises nothing
    and leaves the store as it is.  No HTTP error comes from the data-access
    layer: the operations that can raise ([change_username],
    [change_password], [delete_summary]) never raise an [HTTPException]. *)
Theorem lookups_return_None_when_absent s :
  (∀ email, (∀ u, u ∈ users s → User.email u ≠ email) →
     crud.get_user_by_email email s = (Return None, s))
  ∧ (∀ username, (∀ u, u ∈ users s → User.username u ≠ username) →
     crud.get_user_by_username username s = (Return None, s))
  ∧ (∀ id, (∀ u, u ∈ users s → User.id u ≠ id) →
     crud.get_user_by_id id s = (Return None, s))
  ∧ (∀ symbol, (∀ i : Row, i ∈ instruments s → i !! "symbol" ≠ Some (PStr symbol)) →
     crud.get_instrument_by_symbol symbol s = (Return None, s))
  ∧ (∀ id, (∀ i : Row, i ∈ instruments s → i !! "id" ≠ Some (PInt id)) →
     crud.get_instrument_by_id id s = (Return None, s))
  ∧ (∀ order_id, (∀ o : Row, o ∈ orders s → o !! "id" ≠ Some (PInt order_id)) →
     crud.get_order_by_id order_id s = (Return None, s))
  ∧ (∀ summary_id, (∀ r : Row, r ∈ summaries s → r !! "id" ≠ Some (PInt summary_id)) →
     crud.get_summary_by_id summary_id s = (Return None, s))
  ∧ (∀ user_id, (∀ r : Row, r ∈ summaries s → r !! "user_id" ≠ Some (PInt user_id)) →
     crud.get_summary_by_user_id user_id s = (Return None, s))
  ∧ (∀ email username password,
       (∀ u, u ∈ users s → User.email u ≠ email) →
       (∀ u, u ∈ users s → User.username u ≠ username) →
     crud.authenticate (Some email) (Some username) password s = (Return None, s)
     ∧ crud.authenticate (Some email) None password s = (Return None, s)
     ∧ crud.authenticate None (Some username) password s = (Return None, s))
  ∧ (∀ email new_username new_password summary status_code detail,
       (crud.change_username email new_username s).1
         ≠ Raise (HTTPException status_code detail)
       ∧ (crud.change_password email new_password s).1
         ≠ Raise (HTTPException status_code detail)
       ∧ (crud.delete_summary summary s).1
         ≠ Raise (HTTPException status_code detail)).
Proof.
  repeat split; intros.
  - rewrite get_user_by_email_run. by rewrite head_filter_None.
  - rewrite get_user_by_username_run. by rewrite head_filter_None.
  - rewrite get_user_by_id_run. by rewrite head_filter_None.
  - rewrite get_instrument_by_symbol_run. by rewrite head_filter_None.
  - rewrite get_instrument_by_id_run. by rewrite head_filter_None.
  - rewrite get_order_by_id_run. by rewrite head_filter_None.
  - rewrite get_summary_by_id_run. by rewrite head_filter_None.
  - rewrite get_summary_by_user_id_run. by rewrite head_filter_None.
  - unfold crud.authenticate, if_truthy; rewrite run_bind.
    destruct (truthy email).
    + rewrite get_user_by_email_run. by rewrite head_filter_None.
    + rewrite get_user_by_username_run. by rewrite head_filter_None.
  - unfold crud.authenticate, if_truthy; rewrite run_bind.
    destruct (truthy email); [|done].
    rewrite get_user_by_email_run. by rewrite head_filter_None.
  - unfold crud.authenticate, if_truthy; rewrite run_bind.
    rewrite get_user_by_username_run. by rewrite head_filter_None.
  - unfold crud.change_username. rewrite run_bind, get_user_by_email_run.
    destruct (head _) as [user|]; [|done].
    rewrite run_bind. unfold commit_user. rewrite run_bind, run_read.
    by destruct (decide _).
  - unfold crud.change_password. rewrite run_bind, get_user_by_email_run.
    destruct (head _) as [user|]; [|done].
    rewrite run_bind. unfold commit_user. rewrite run_bind, run_read.
    by destruct (decide _).
  - by destruct summary.
Qed.

End absence.

Lemma lookups_return_None_when_absent_witness :
  crud.get_user_by_email "b@x.com" empty_store = (Return None, empty_store)
  ∧ crud.get_instrument_by_symbol "AAPL" empty_store = (Return None, empty_store)
  ∧ crud.authenticate (security := test_security) (Some "b@x.com") None "p" empty_store
    = (Return None, empty_store).
Proof.
  pose proof (lookups_return_None_when_absent (security := test_security) empty_store)
    as (Hemail & _ & _ & Hsymbol & _ & _ & _ & _ & Hauth & _).
  split; [|split].
  - apply Hemail. intros u Hu. by apply elem_of_nil in Hu.
  - apply Hsymbol. intros i Hi. by apply elem_of_nil in Hi.
  - apply (Hauth "b@x.com" "b" "p"); intros u Hu; by apply elem_of_nil in Hu.
Defined.

(** [change_username] and [change_password] are data-access operations
    given an email, and raise when it matches no user. *)
Lemma change_username_raises_when_absent :
  (∀ u, u ∈ users alice_store → User.email u ≠ "nobody@x.com")
  ∧ crud.change_username "nobody@x.com" "n" alice_store
    = (Raise AttributeError, alice_store)
  ∧ crud.change_password (security := test_security) "nobody@x.com" "p" alice_store
    = (Raise AttributeError, alice_store).
Proof.
  split; [|split; reflexivity].
  intros u ->%list_elem_of_singleton. done.
Qed.

(** ** [POST /users] *)

Section signup.
Context {security : Security} {engine : Engine}.
Implicit Types (s : Store) (user_in : UserCreate.t).

Lemma create_user_run_registered s user_in u :
  u ∈ users s → User.email u = UserCreate.email user_in →
  routes.create_user user_in s = (Raise conflict, s).
Proof.
  intros Hu Hemail. unfold routes.create_user.
  rewrite run_bind, get_user_by_email_run.
  by destruct (head_filter_is_Some (λ u, User.email u = UserCreate.email user_in)
                 (users s) u Hu Hemail) as [v ->].
Qed.

Lemma user_stored_after_insert s (u : User.t) :
  user_stored (with_users (.++ [u]) (with_user_id_seq (User.id u) s))
    (Some (PInt (User.id u))).
Proof.
  apply Exists_exists. exists u. split; [|done].
  simpl. apply elem_of_app. right. by apply list_elem_of_singleton.
Qed.

(** The outcomes of the signup. *)
Lemma create_user_run s user_in :
  routes.create_user user_in s
  = match head (filter (λ u, User.email u = UserCreate.email user_in) (users s)) with
    | Some _ => (Raise conflict, s)
    | None =>
        if decide (email_or_username_taken (users s) (new_user s user_in))
        then (Raise IntegrityError, with_user_id_seq (user_id_seq s + 1) s)
        else if decide (has_summary s (user_id_seq s + 1))
             then (Raise IntegrityError,
                   with_summary_id_seq (summary_id_seq s + 1)
                     (with_users (.++ [new_user s user_in])
                        (with_user_id_seq (user_id_seq s + 1) s)))
             else (Return (new_user s user_in), after_signup s user_in)
    end.
Proof.
  unfold routes.create_user. rewrite run_bind, get_user_by_email_run.
  destruct (head _) as [found|]; [done|].
  rewrite run_bind. unfold crud.create_user.
  rewrite run_bind, run_read, run_bind, run_modify.
  fold (new_user s user_in).
  destruct (decide (email_or_username_taken (users s) (new_user s user_in)));
    [done|].
  rewrite run_bind, run_modify, run_ret, run_bind.
  unfold crud.create_summary. rewrite run_bind, run_read, run_bind, run_modify.
  pose proof (user_stored_after_insert s (new_user s user_in)) as Hstored.
  destruct (decide (has_summary s (user_id_seq s + 1))) as [Hhas|Hnone].
  - rewrite decide_False; [done|]. intros [_ Hno]. by apply Hno.
  - rewrite decide_True by done. reflexivity.
Qed.

Lemma email_or_username_free s user_in :
  (∀ u, u ∈ users s → User.email u ≠ UserCreate.email user_in) →
  (∀ u, u ∈ users s → User.username u ≠ UserCreate.username user_in) →
  ¬ email_or_username_taken (users s) (new_user s user_in).
Proof.
  intros Hemail Husername (u & Hu & [He|Hn])%Exists_exists.
  - by apply (Hemail u).
  - by apply (Husername u).
Qed.

Lemma create_user_run_fresh s user_in :
  (∀ u, u ∈ users s → User.email u ≠ UserCreate.email user_in) →
  (∀ u, u ∈ users s → User.username u ≠ UserCreate.username user_in) →
  ¬ has_summary s (user_id_seq s + 1) →
  routes.create_user user_in s = (Return (new_user s user_in), after_signup s user_in).
Proof.
  intros Hemail Husername Hnone. rewrite create_user_run.
  rewrite head_filter_None by done.
  rewrite decide_False by by apply email_or_username_free.
  by rewrite decide_False.
Qed.

(** C5: when the email of the request is the email of a stored user,
    [POST /users] fails with the 400 conflict error and the store, with its
    set of users, is unchanged; in particular, once a signup has returned the
    new user or has been refused with this 400, the same payload sent again
    gets the 400 and no second user is created.  (A signup that the unique
    index on the username refuses leaves the email unregistered.) *)
Theorem create_user_rejects_registered_email s user_in :
  (∀ u, u ∈ users s → User.email u = UserCreate.email user_in →
     routes.create_user user_in s = (Raise conflict, s))
  ∧ (∀ outcome s1, routes.create_user user_in s = (outcome, s1) →
     outcome ≠ Raise IntegrityError →
     routes.create_user user_in s1 = (Raise conflict, s1)).
Proof.
  split.
  - intros u. apply create_user_run_registered.
  - intros outcome s1. rewrite create_user_run.
    destruct (head _) as [found|] eqn:Hfound.
    + intros [= <- <-] _.
      apply head_Some_elem_of, list_elem_of_filter in Hfound as [Hemail Hin].
      by apply (create_user_run_registered _ user_in found).
    + destruct (decide (email_or_username_taken _ _)); [by intros [= <- <-] |].
      destruct (decide (has_summary _ _)); [by intros [= <- <-] |].
      intros [= <- <-] _.
      apply (create_user_run_registered _ user_in (new_user s user_in)); [|done].
      simpl. apply elem_of_app. right. by apply list_elem_of_singleton.
Qed.

End signup.

Lemma create_user_rejects_registered_email_witness :
  routes.create_user (security := test_security) alice_signup alice_store
  = (Raise conflict, alice_store)
  ∧ routes.create_user (security := test_security) alice_signup
      (after_signup (security := test_security) empty_store alice_signup)
    = (Raise conflict, after_signup (security := test_security) empty_store alice_signup).
Proof.
  split.
  - apply (proj1 (create_user_rejects_registered_email (security := test_security)
                    alice_store alice_signup) alice).
    + by apply list_elem_of_singleton.
    + reflexivity.
  - apply (proj2 (create_user_rejects_registered_email (security := test_security)
                    empty_store alice_signup) (Return alice)).
    + vm_compute. reflexivity.
    + discriminate.
Defined.

Section signup_creates.
Context {security : Security} {engine : Engine}.
Implicit Types (s : Store) (user_in : UserCreate.t).

(** C2, as the code has it: for a request whose email is not registered
    and whose username no stored user holds, in a store where no summary is
    left of the id that the sequence issues next, [POST /users] stores the
    new user (the email and username of the request, the hash of its
    password) and a summary owned by this user, so that after the call both
    are found; no portfolio is created: the tables of portfolios and assets
    are unchanged. *)
Theorem create_user_stores_user_and_summary s user_in :
  (∀ u, u ∈ users s → User.email u ≠ UserCreate.email user_in) →
  (∀ u, u ∈ users s → User.username u ≠ UserCreate.username user_in) →
  ¬ has_summary s (user_id_seq s + 1) →
  ∃ user summary s',
    routes.create_user user_in s = (Return user, s')
    ∧ User.email user = UserCreate.email user_in
    ∧ User.username user = UserCreate.username user_in
    ∧ User.hashed_password user = get_password_hash (UserCreate.password user_in)
    ∧ users s' = users s ++ [user]
    ∧ crud.get_user_by_email (UserCreate.email user_in) s' = (Return (Some user), s')
    ∧ summaries s' = summaries s ++ [summary]
    ∧ summary !! "user_id" = Some (PInt (User.id user))
    ∧ (∃ found, crud.get_summary_by_user_id (User.id user) s' = (Return (Some found), s'))
    ∧ portfolios s' = portfolios s
    ∧ assets s' = assets s.
Proof.
  intros Hfresh Husername Hnone.
  exists (new_user s user_in), (new_summary s (new_user s user_in)),
         (after_signup s user_in).
  rewrite create_user_run_fresh by done.
  repeat split; try done.
  - rewrite get_user_by_email_run. do 2 f_equal. simpl.
    apply head_filter_unique; [| done |].
    + apply elem_of_app. right. by apply list_elem_of_singleton.
    + intros y [Hy | Hy%list_elem_of_singleton]%elem_of_app Hemail; [|done].
      by destruct (Hfresh y Hy).
  - rewrite get_summary_by_user_id_run.
    destruct (head_filter_is_Some
                (λ r : Row, r !! "user_id" = Some (PInt (User.id (new_user s user_in))))
                (summaries (after_signup s user_in))
                (new_summary s (new_user s user_in))) as [found ->]; [| done | by eexists].
    simpl. apply elem_of_app. right. by apply list_elem_of_singleton.
Qed.

End signup_creates.

Lemma create_user_stores_user_and_summary_witness :
  ∃ user summary s',
    routes.create_user (security := test_security) alice_signup empty_store
    = (Return user, s')
    ∧ users s' = [user] ∧ summaries s' = [summary]
    ∧ summary !! "user_id" = Some (PInt (User.id user)).
Proof.
  destruct (create_user_stores_user_and_summary (security := test_security)
              empty_store alice_signup)
    as (user & summary & s' & Hrun & _ & _ & _ & Hu & _ & Hs & Hid & _).
  - intros u Hu. by apply elem_of_nil in Hu.
  - intros u Hu. by apply elem_of_nil in Hu.
  - intros Hhas. apply Exists_exists in Hhas as (r & Hr & _).
    by apply elem_of_nil in Hr.
  - exists user, summary, s'. by rewrite Hu, Hs.
Defined.

(** Two signups whose email is not registered.  On the empty store the
    signup of [alice_signup] succeeds and leaves the new user without a
    portfolio.  With [alice] stored, a signup under another email and the
    username of [alice] is refused by the engine: an [IntegrityError], and
    no user and no summary stored. *)
Lemma create_user_creates_no_portfolio :
  ((∀ u, u ∈ users empty_store → User.email u ≠ UserCreate.email alice_signup)
   ∧ ∃ user s',
       routes.create_user (security := test_security) alice_signup empty_store
       = (Return user, s')
       ∧ ¬ ∃ p : Row, p ∈ portfolios s' ∧ p !! "user_id" = Some (PInt (User.id user)))
  ∧ ((∀ u, u ∈ users alice_store → User.email u ≠ "c@x.com")
     ∧ ∃ s',
         routes.create_user (security := test_security)
           (UserCreate.Build "c@x.com" "a" "p") alice_store
         = (Raise IntegrityError, s')
         ∧ users s' = users alice_store ∧ summaries s' = summaries alice_store).
Proof.
  split; split.
  - intros u Hu. by apply elem_of_nil in Hu.
  - exists alice, alice_store. split; [vm_compute; reflexivity|].
    intros (p & Hp & _). by apply elem_of_nil in Hp.
  - intros u ->%list_elem_of_singleton. discriminate.
  - eexists. split; [vm_compute; reflexivity|]. split; reflexivity.
Qed.

(** ** [PUT /users/{user_id}] *)

Section update_user.
Context {security : Security} {engine : Engine}.
Implicit Types (s : Store) (data : UserUpdate.t) (user : User.t).

(** Both fields false: the 400 comes before any use of the user. *)
Lemma update_user_run_no_details s user_id data :
  truthy (UserUpdate.username data) = false →
  truthy (UserUpdate.password data) = false →
  routes.update_user user_id data s = (Raise no_details, s).
Proof.
  intros Hu Hp. unfold routes.update_user.
  rewrite run_bind, get_user_by_id_run, Hu, Hp. reflexivity.
Qed.

(** C7: a [PUT /users/{user_id}] whose payload supplies neither a username
    nor a password fails with the 400 bad-request error and leaves the store,
    with the stored user, unchanged. *)
Theorem update_user_requires_a_field s user_id data :
  UserUpdate.username data = None →
  UserUpdate.password data = None →
  routes.update_user user_id data s = (Raise no_details, s).
Proof.
  intros Hu Hp. apply update_user_run_no_details.
  - by rewrite Hu.
  - by rewrite Hp.
Qed.

(** C9, as the code has it: when [user_id] matches no stored user and the
    payload supplies a non-empty username or a non-empty password,
    [update_user], which checks nothing about the result of its lookup, reads
    [.email] of [None] and fails with an uncaught [AttributeError], not with
    a 400 response; the store is unchanged. *)
Theorem update_user_absent_user_raises s user_id data :
  (∀ u, u ∈ users s → User.id u ≠ user_id) →
  truthy (UserUpdate.username data) = true ∨ truthy (UserUpdate.password data) = true →
  routes.update_user user_id data s = (Raise AttributeError, s).
Proof.
  intros Habsent Hsupplied. unfold routes.update_user.
  rewrite run_bind, get_user_by_id_run, head_filter_None by done.
  destruct (truthy (UserUpdate.username data)) eqn:Hu.
  - cbn [negb andb].
    apply truthy_Some_inv in Hu as (new_username & -> & Hu).
    rewrite run_bind, if_truthy_true by done. reflexivity.
  - destruct Hsupplied as [|Hp]; [done|]. rewrite Hp. cbn [negb andb].
    rewrite run_bind, if_truthy_false, run_ret by done.
    apply truthy_Some_inv in Hp as (new_password & -> & Hp).
    rewrite run_bind, if_truthy_true by done. reflexivity.
Qed.

Lemma change_username_outcome s email new_username :
  (∃ user' s', crud.change_username email new_username s = (Return user', s'))
  ∨ crud.change_username email new_username s = (Raise AttributeError, s)
  ∨ crud.change_username email new_username s = (Raise IntegrityError, s).
Proof.
  unfold crud.change_username. rewrite run_bind, get_user_by_email_run.
  destruct (head _) as [user|]; [|by right; left].
  rewrite run_bind. unfold commit_user. rewrite run_bind, run_read.
  destruct (decide _); [by right; right | left; by eexists _, _].
Qed.

Lemma change_password_outcome s email new_password :
  (∃ user' s', crud.change_password email new_password s = (Return user', s'))
  ∨ crud.change_password email new_password s = (Raise AttributeError, s)
  ∨ crud.change_password email new_password s = (Raise IntegrityError, s).
Proof.
  unfold crud.change_password. rewrite run_bind, get_user_by_email_run.
  destruct (head _) as [user|]; [|by right; left].
  rewrite run_bind. unfold commit_user. rewrite run_bind, run_read.
  destruct (decide _); [by right; right | left; by eexists _, _].
Qed.

(** [updated_user] is bound whenever it is returned: past the 400, one of the
    two branches has run. *)
Lemma update_user_binds_updated_user s user_id data :
  (routes.update_user user_id data s).1 ≠ Raise UnboundLocalError.
Proof.
  unfold routes.update_user. rewrite run_bind, get_user_by_id_run.
  destruct (truthy (UserUpdate.username data)) eqn:Hu;
    destruct (truthy (UserUpdate.password data)) eqn:Hp; cbn [negb andb]; [| | |done].
  - apply truthy_Some_inv in Hu as (new_username & -> & Hu).
    apply truthy_Some_inv in Hp as (new_password & -> & Hp).
    rewrite run_bind, if_truthy_true, run_bind by done.
    destruct (head _) as [user|]; [|done]. simpl (getattr_email _). rewrite run_ret, run_fmap.
    destruct (change_username_outcome s (User.email user) new_username)
      as [(user1 & s1 & ->) | [-> | ->]]; [|done..].
    rewrite run_bind, if_truthy_true, run_bind, run_ret, run_fmap by done.
    by destruct (change_password_outcome s1 (User.email user) new_password)
      as [(user2 & s2 & ->) | [-> | ->]].
  - apply truthy_Some_inv in Hu as (new_username & -> & Hu).
    rewrite run_bind, if_truthy_true, run_bind by done.
    destruct (head _) as [user|]; [|done]. simpl (getattr_email _). rewrite run_ret, run_fmap.
    destruct (change_username_outcome s (User.email user) new_username)
      as [(user1 & s1 & ->) | [-> | ->]]; [|done..].
    by rewrite run_bind, if_truthy_false, run_ret.
  - apply truthy_Some_inv in Hp as (new_password & -> & Hp).
    rewrite run_bind, (if_truthy_false (UserUpdate.username data)), run_ret by done.
    rewrite run_bind, if_truthy_true, run_bind by done.
    destruct (head _) as [user|]; [|done]. simpl (getattr_email _). rewrite run_ret, run_fmap.
    by destruct (change_password_outcome s (User.email user) new_password)
      as [(user2 & s2 & ->) | [-> | ->]].
Qed.

End update_user.

Lemma update_user_absent_user_raises_witness :
  routes.update_user (security := test_security) 2 (UserUpdate.Build (Some "b") None) alice_store
  = (Raise AttributeError, alice_store).
Proof.
  apply update_user_absent_user_raises.
  - intros u ->%list_elem_of_singleton. done.
  - left. reflexivity.
Defined.

Lemma update_user_requires_a_field_witness :
  routes.update_user (security := test_security) 1 (UserUpdate.Build None None) alice_store
  = (Raise no_details, alice_store).
Proof. apply update_user_requires_a_field; reflexivity. Defined.

(** No user has id 2 and the payload supplies a username, the empty string:
    the answer is the 400 of the missing details, not an exception. *)
Lemma update_user_absent_user_empty_username :
  (∀ u, u ∈ users alice_store → User.id u ≠ 2%Z)
  ∧ UserUpdate.username (UserUpdate.Build (Some "") None) = Some ""
  ∧ routes.update_user (security := test_security) 2 (UserUpdate.Build (Some "") None) alice_store
    = (Raise no_details, alice_store).
Proof.
  split; [|split; reflexivity].
  intros u ->%list_elem_of_singleton. done.
Qed.
Section update_user_both.
Context {security : Security} {engine : Engine}.
Implicit Types (s : Store) (data : UserUpdate.t) (user : User.t).

Lemma head_filter_update_user_row_changed (P : User.t → Prop) `{!∀ x, Decision (P x)}
    (l : list User.t) user user' :
  head (filter P l) = Some user → P user' →
  (user' ≠ user → ∀ u, u ∈ l → User.id u ≠ User.id user → ¬ P u) →
  head (filter P (update_user_row user user' l)) = Some user'.
Proof.
  intros Hhead HP Hother. unfold update_user_row.
  destruct (decide (user' = user)) as [->|Hne]; [done|].
  apply (head_filter_moved User.id P (User.id user) user); [|done|done|by apply Hother].
  apply head_Some_elem_of, list_elem_of_filter in Hhead. tauto.
Qed.

Lemma head_filter_update_user_row (P : User.t → Prop) `{!∀ x, Decision (P x)}
    (l : list User.t) user user' :
  head (filter P l) = Some user → P user' →
  (∀ u, u ∈ l → User.id u ≠ User.id user → ¬ P u) →
  head (filter P (update_user_row user user' l)) = Some user'.
Proof. intros Hhead HP Hother. by apply head_filter_update_user_row_changed. Qed.

Lemma elem_of_update_user_row_other (l : list User.t) user user' v :
  v ∈ l → User.id v ≠ User.id user → v ∈ update_user_row user user' l.
Proof.
  intros Hv Hne. unfold update_user_row. destruct (decide _); [done|].
  apply elem_of_app. left. by apply list_elem_of_filter.
Qed.

Lemma elem_of_update_user_row_new (l : list User.t) user user' :
  user ∈ l → user' ∈ update_user_row user user' l.
Proof.
  intros Hin. unfold update_user_row. destruct (decide _) as [->|_]; [done|].
  apply elem_of_app. right. apply list_elem_of_fmap. exists user.
  split; [done|]. by apply list_elem_of_filter.
Qed.

Lemma length_filter_split {A} (P : A → Prop) `{!∀ x, Decision (P x)} (l : list A) :
  length (filter (λ x, ¬ P x) l) + length (filter P l) = length l.
Proof.
  induction l as [|x l IH]; [done|].
  destruct (decide (P x)) as [HP|HP].
  - rewrite (filter_cons_True P), (filter_cons_False (λ x, ¬ P x)) by tauto.
    simpl. lia.
  - rewrite (filter_cons_False P), (filter_cons_True (λ x, ¬ P x)) by tauto.
    simpl. lia.
Qed.

Lemma length_update_user_row (l : list User.t) user user' :
  length (update_user_row user user' l) = length l.
Proof.
  unfold update_user_row. destruct (decide _); [done|].
  rewrite length_app, length_fmap.
  apply (length_filter_split (λ row, User.id row = User.id user)).
Qed.


Lemma update_user_row_twice user user1 user2 (l : list User.t) :
  User.id user1 = User.id user →
  (user2 = user → user1 = user) →
  update_user_row user1 user2 (update_user_row user user1 l)
  = update_user_row user user2 l.
Proof.
  intros Hid Hback. unfold update_user_row at 2.
  destruct (decide (user1 = user)) as [->|H1]; [done|].
  unfold update_user_row.
  destruct (decide (user2 = user1)) as [->|H2].
  - by rewrite decide_False.
  - rewrite decide_False by (intros ->; by apply H1, Hback).
    rewrite Hid.
    rewrite (moved_filter_ne User.id), (moved_filter_eq User.id) by done.
    f_equal. by rewrite <- list_fmap_compose.
Qed.

Lemma commit_user_run s user user' :
  ¬ taken_by_another (users s) user' →
  commit_user user user' s = (Return (), with_users (update_user_row user user') s).
Proof.
  intros Hfree. unfold commit_user. rewrite run_bind, run_read.
  rewrite decide_False by tauto. apply run_modify.
Qed.

Lemma change_username_run s email new_username user :
  crud.get_user_by_email email s = (Return (Some user), s) →
  ¬ taken_by_another (users s) (User.with_username new_username user) →
  crud.change_username email new_username s
  = (Return (User.with_username new_username user),
     with_users (update_user_row user (User.with_username new_username user)) s).
Proof.
  intros Hget Hfree. unfold crud.change_username.
  by rewrite run_bind, Hget, run_bind, commit_user_run, run_ret.
Qed.

Lemma change_password_run s email new_password user :
  crud.get_user_by_email email s = (Return (Some user), s) →
  ¬ taken_by_another (users s)
      (User.with_hashed_password (get_password_hash new_password) user) →
  crud.change_password email new_password s
  = (Return (User.with_hashed_password (get_password_hash new_password) user),
     with_users (update_user_row user
       (User.with_hashed_password (get_password_hash new_password) user)) s).
Proof.
  intros Hget Hfree. unfold crud.change_password.
  by rewrite run_bind, Hget, run_bind, commit_user_run, run_ret.
Qed.

Lemma get_user_by_id_Some s user_id user :
  crud.get_user_by_id user_id s = (Return (Some user), s) →
  user ∈ users s ∧ User.id user = user_id.
Proof.
  rewrite get_user_by_id_run. intros [= Hhead].
  apply head_Some_elem_of, list_elem_of_filter in Hhead. tauto.
Qed.

Lemma elem_of_update_user_row user user' (l : list User.t) v :
  v ∈ update_user_row user user' l →
  (v ∈ l ∧ (User.id v ≠ User.id user ∨ user' = user)) ∨ v = user'.
Proof.
  unfold update_user_row. destruct (decide (user' = user)) as [->|Hne].
  - intros Hv. left. tauto.
  - intros [Hv | (x & -> & _)%list_elem_of_fmap]%elem_of_app; [|by right].
    apply list_elem_of_filter in Hv. left. tauto.
Qed.

(** C8, as the code has it: for a stored user, in a store whose emails are
    unique, and a payload that supplies a non-empty username that no other
    stored user holds and a non-empty password, [PUT /users/{user_id}]
    applies both in the one call: the user returned, which is the user stored
    afterwards under this id, has the new username and, as [hashed_password],
    the hash of the new password; its id and email are unchanged, and so are
    the other tables.  The row updated is the last of the users table. *)
Theorem update_user_applies_both s user_id data user new_username new_password :
  unique_emails s →
  crud.get_user_by_id user_id s = (Return (Some user), s) →
  (∀ v, v ∈ users s → User.id v ≠ User.id user → User.username v ≠ new_username) →
  UserUpdate.username data = Some new_username → new_username ≠ "" →
  UserUpdate.password data = Some new_password → new_password ≠ "" →
  let user' :=
    {| User.id := User.id user; User.email := User.email user;
       User.username := new_username;
       User.hashed_password := get_password_hash new_password |} in
  let s' := with_users (update_user_row user user') s in
  routes.update_user user_id data s = (Return user', s')
  ∧ crud.get_user_by_id user_id s' = (Return (Some user'), s').
Proof.
  intros Huniq Hget Hfree Husername Hu Hpassword Hp user' s'.
  destruct (get_user_by_id_Some _ _ _ Hget) as [Hin Hid].
  apply str_truthy_spec in Hu, Hp.
  set (user1 := User.with_username new_username user).
  set (s1 := with_users (update_user_row user user1) s).
  assert (∀ u, u ∈ users s → User.id u ≠ User.id user →
               User.email u ≠ User.email user) as Hothers.
  { intros u Hu' Hne Hemail. apply Hne. by rewrite (Huniq u user Hu' Hin Hemail). }
  assert (head (filter (λ u, User.email u = User.email user) (users s)) = Some user)
    as Hhead.
  { apply head_filter_unique; [done..|]. intros y Hy Hey. by apply Huniq. }
  assert (crud.get_user_by_email (User.email user) s = (Return (Some user), s)) as Hemail.
  { rewrite get_user_by_email_run. by do 2 f_equal. }
  assert (crud.get_user_by_email (User.email user) s1 = (Return (Some user1), s1))
    as Hemail1.
  { rewrite get_user_by_email_run. do 2 f_equal. simpl.
    by apply head_filter_update_user_row. }
  assert (¬ taken_by_another (users s) user1) as Hfree0.
  { intros (v & Hv & Hne & [He | Hn])%Exists_exists.
    - by apply (Hothers v).
    - by apply (Hfree v). }
  assert (¬ taken_by_another (users s1)
            (User.with_hashed_password (get_password_hash new_password) user1))
    as Hfree1.
  { intros (v & Hv & Hne & Htaken)%Exists_exists. simpl in Hv, Hne, Htaken.
    apply elem_of_update_user_row in Hv as [[Hv _] | ->]; [|done].
    destruct Htaken as [He | Hn].
    - by apply (Hothers v).
    - by apply (Hfree v). }
  split.
  - unfold routes.update_user.
    rewrite run_bind, Hget, Husername, Hpassword.
    unfold truthy at 1 2, optional_truthy. rewrite Hu, Hp. cbn [negb andb].
    rewrite run_bind, if_truthy_true by done.
    rewrite run_bind. unfold getattr_email at 1. rewrite run_ret.
    rewrite run_fmap, (change_username_run _ _ _ _ Hemail Hfree0).
    rewrite run_bind, if_truthy_true by done.
    rewrite run_bind. unfold getattr_email at 1. rewrite run_ret.
    rewrite run_fmap. fold user1 s1.
    rewrite (change_password_run _ _ _ _ Hemail1 Hfree1), run_ret.
    f_equal. unfold s', s1, with_users; simpl. f_equal.
    apply update_user_row_twice; [done|].
    intros Heq%(f_equal User.username). simpl in Heq.
    unfold user1, User.with_username. rewrite Heq. by destruct user.
  - rewrite get_user_by_id_run. do 2 f_equal. simpl.
    apply head_filter_update_user_row; [| done |].
    + rewrite get_user_by_id_run in Hget. by injection Hget.
    + intros u _ Hne. by rewrite <- Hid.
Qed.

End update_user_both.

Lemma unique_emails_two_users : unique_emails two_users.
Proof.
  intros u v Hu Hv. unfold two_users in Hu, Hv. simpl in Hu, Hv.
  apply elem_of_cons in Hu as [->| ->%list_elem_of_singleton];
    apply elem_of_cons in Hv as [->| ->%list_elem_of_singleton];
    done.
Defined.

Lemma update_user_applies_both_witness :
  routes.update_user (security := test_security) 1 (UserUpdate.Build (Some "z") (Some "q"))
    two_users
  = (Return (User.Build 1 "a@x.com" "z" "hashed:q"),
     with_users (λ _, [bob; User.Build 1 "a@x.com" "z" "hashed:q"]) two_users).
Proof.
  refine (proj1 (update_user_applies_both (security := test_security) two_users 1
                   (UserUpdate.Build (Some "z") (Some "q")) alice "z" "q" _ _ _ _ _ _ _)).
  - apply unique_emails_two_users.
  - reflexivity.
  - intros v Hv Hne. unfold two_users in Hv. simpl in Hv.
    apply elem_of_cons in Hv as [->| ->%list_elem_of_singleton]; discriminate.
  - reflexivity.
  - discriminate.
  - reflexivity.
  - discriminate.
Defined.

(** The payload supplies both fields and the username is not applied.  With
    the empty string as username, the password changes and the username of
    the stored user stays ["a"].  With the username of another stored user,
    the unique index of the users table refuses the change: the call raises,
    nothing is returned and the stored user keeps its username and its
    password. *)
Lemma update_user_username_not_applied :
  (let data := UserUpdate.Build (Some "") (Some "q") in
   unique_emails alice_store
   ∧ crud.get_user_by_id 1 alice_store = (Return (Some alice), alice_store)
   ∧ ∃ user' s',
       routes.update_user (security := test_security) 1 data alice_store
       = (Return user', s')
       ∧ crud.get_user_by_id 1 s' = (Return (Some user'), s')
       ∧ Some (User.username user') ≠ UserUpdate.username data)
  ∧ (let data := UserUpdate.Build (Some "b") (Some "q") in
     unique_emails two_users
     ∧ crud.get_user_by_id 1 two_users = (Return (Some alice), two_users)
     ∧ routes.update_user (security := test_security) 1 data two_users
       = (Raise IntegrityError, two_users)).
Proof.
  split; [split; [|split] | split; [|split]].
  - intros u v ->%list_elem_of_singleton ->%list_elem_of_singleton _. reflexivity.
  - reflexivity.
  - eexists _, _. split; [reflexivity|]. split; [reflexivity|]. discriminate.
  - apply unique_emails_two_users.
  - reflexivity.
  - vm_compute. reflexivity.
Qed.

(** ** [DELETE /users/{user_id}] *)

Section delete_user.
Implicit Types (s : Store) (user : User.t) (rows : list Row).

Lemma for_each_delete_order_run (os : list Order) s :
  for_each os crud.delete_order s
  = (Return (), with_orders (λ rows, foldl (λ rows o, delete_row o rows) rows os) s).
Proof.
  revert s. induction os as [|o os IH]; intros s.
  - by destruct s.
  - simpl. rewrite run_bind. unfold crud.delete_order at 1. rewrite run_modify.
    by rewrite IH.
Qed.

Lemma elem_of_delete_row (obj row : Row) rows :
  row ∈ delete_row obj rows ↔ row ∈ rows ∧ pk row ≠ pk obj.
Proof. unfold delete_row. rewrite list_elem_of_filter. tauto. Qed.

Lemma elem_of_delete_rows (os : list Row) (row : Row) rows :
  row ∈ foldl (λ rows o, delete_row o rows) rows os
  ↔ row ∈ rows ∧ ∀ o, o ∈ os → pk row ≠ pk o.
Proof.
  revert rows. induction os as [|o os IH]; intros rows; simpl.
  - split; [|tauto]. intros Hrow. split; [done|]. intros o Ho.
    by apply elem_of_nil in Ho.
  - rewrite IH, elem_of_delete_row. split.
    + intros [[Hrow Hne] Hos]. split; [done|].
      intros d [->|Hd]%elem_of_cons; auto.
    + intros [Hrow Hos]. repeat split; [done | |].
      * apply Hos. by left.
      * intros d Hd. apply Hos. by right.
Qed.

Lemma delete_user_run s user_id :
  routes.delete_user user_id s
  = match head (filter (λ u, User.id u = user_id) (users s)) with
    | None => (Raise not_found, s)
    | Some user =>
        let s1 := without_orders_of user s in
        match head (filter (λ r : Row, r !! "user_id" = Some (PInt user_id))
                      (summaries s)) with
        | None => (Raise UnmappedInstanceError, s1)
        | Some summary =>
            let s2 := with_summaries (delete_row summary) s1 in
            if decide (referred_to "user_id" (Some (PInt (User.id user)))
                         (orders s2 ++ summaries s2 ++ portfolios s2))
            then (Raise IntegrityError, s2)
            else (Return user, with_users (filter (λ u, User.id u ≠ User.id user)) s2)
        end
    end.
Proof.
  unfold routes.delete_user. rewrite run_bind, get_user_by_id_run.
  destruct (head _) as [user|]; [|done].
  rewrite run_bind, User_orders_run, run_bind, for_each_delete_order_run.
  fold (without_orders_of user s).
  rewrite run_bind, get_summary_by_user_id_run.
  change (summaries (without_orders_of user s)) with (summaries s).
  cbv zeta. destruct (head _) as [summary|]; [|done].
  rewrite run_bind. unfold crud.delete_summary. rewrite run_modify.
  rewrite run_bind. unfold crud.delete_user. rewrite run_bind, run_read.
  destruct (decide _); [done|]. by rewrite run_modify, run_ret.
Qed.

Lemma without_orders_of_subset user s (o : Row) :
  o ∈ orders (without_orders_of user s) →
  o ∈ orders s ∧ o !! "user_id" ≠ Some (PInt (User.id user)).
Proof.
  unfold without_orders_of. simpl. intros [Ho Hne]%elem_of_delete_rows.
  split; [done|]. intros Huser. apply (Hne o); [|done].
  by apply list_elem_of_filter.
Qed.

(** C1, where the code breaks it: for an existing user whose summary the
    lookup by user id finds and who owns a portfolio, [DELETE /users/{user_id}]
    deletes the orders of the user and this summary, and then the deletion of
    the user row is refused, for the portfolio refers to the user: the request
    raises [IntegrityError], no user is returned, and the user row, the
    portfolios and the assets are stored as before. *)
Theorem delete_user_with_portfolio_raises s user_id user summary portfolio :
  crud.get_user_by_id user_id s = (Return (Some user), s) →
  crud.get_summary_by_user_id user_id s = (Return (Some summary), s) →
  portfolio ∈ portfolios s →
  portfolio !! "user_id" = Some (PInt user_id) →
  ∃ s', routes.delete_user user_id s = (Raise IntegrityError, s')
        ∧ (∀ o : Row, o ∈ orders s' → o ∈ orders s ∧ o !! "user_id" ≠ Some (PInt user_id))
        ∧ summaries s' = delete_row summary (summaries s)
        ∧ users s' = users s
        ∧ crud.get_user_by_id user_id s' = (Return (Some user), s')
        ∧ portfolios s' = portfolios s
        ∧ assets s' = assets s.
Proof.
  intros Hget Hsummary Hin Howner.
  destruct (get_user_by_id_Some _ _ _ Hget) as [_ Hid].
  rewrite get_user_by_id_run in Hget. injection Hget as Hget.
  rewrite get_summary_by_user_id_run in Hsummary. injection Hsummary as Hsummary.
  exists (with_summaries (delete_row summary) (without_orders_of user s)).
  rewrite delete_user_run, Hget. cbv zeta. rewrite Hsummary.
  rewrite decide_True.
  - repeat split; try done.
    + by apply without_orders_of_subset in H as [? _].
    + apply without_orders_of_subset in H as [_ Hne]. by rewrite <- Hid.
    + rewrite get_user_by_id_run. simpl. by rewrite Hget.
  - apply Exists_exists. exists portfolio. split; [|by rewrite Hid].
    rewrite !elem_of_app. right; right. done.
Qed.

End delete_user.

Lemma delete_user_with_portfolio_raises_witness :
  ∃ s', routes.delete_user 1 alice_with_portfolio = (Raise IntegrityError, s')
        ∧ summaries s' = []
        ∧ users s' = [alice]
        ∧ portfolios s' = [alice_portfolio]
        ∧ assets s' = [alice_asset].
Proof.
  destruct (delete_user_with_portfolio_raises alice_with_portfolio 1 alice
              {[ "id" := PInt 1; "user_id" := PInt 1 ]} alice_portfolio)
    as (s' & Hrun & _ & Hsummaries & Husers & _ & Hportfolios & Hassets).
  - reflexivity.
  - reflexivity.
  - by apply list_elem_of_singleton.
  - reflexivity.
  - exists s'. split; [exact Hrun|]. split; [|split; [|split]].
    + rewrite Hsummaries. reflexivity.
    + exact Husers.
    + exact Hportfolios.
    + exact Hassets.
Defined.

(** The other case that the handler misses: a user without a summary row.
    The orders are deleted, then [session.delete(None)] raises and the user
    stays. *)
Lemma delete_user_without_summary_raises :
  crud.get_user_by_id 1 alice_without_summary
  = (Return (Some alice), alice_without_summary)
  ∧ ∃ s', routes.delete_user 1 alice_without_summary = (Raise UnmappedInstanceError, s')
          ∧ orders s' = []
          ∧ crud.get_user_by_id 1 s' = (Return (Some alice), s').
Proof.
  split; [reflexivity|].
  eexists. split; [vm_compute; reflexivity|]. split; reflexivity.
Qed.

(** ** Listings: [GET /users] and [get_orders] *)

Section listing.
Implicit Types (s : Store).

(** The page of a list of rows. *)
Lemma exec_all_paginated {T} (table : Store → list T) (st : Select T) skip limit s :
  offset_clause st = Some skip → limit_clause st = Some limit →
  exec_all table st s
  = if rejected (Some skip) || rejected (Some limit)
    then (Raise DataError, s)
    else (Return (take (Z.to_nat limit)
                    (drop (Z.to_nat skip) (filter (λ row, matches st row) (table s)))), s).
Proof.
  intros Ho Hl. unfold exec_all, paginate. rewrite Ho, Hl, run_bind, run_read.
  by destruct (rejected (Some skip) || rejected (Some limit)).
Qed.

Lemma rejected_in_range (n : Z) : (0 ≤ n < 2 ^ 63)%Z → rejected (Some n) = false.
Proof.
  intros [Hlo Hhi]. unfold rejected. apply orb_false_iff.
  split; [by apply Z.ltb_ge | by apply Z.leb_gt].
Qed.

Lemma rejected_negative (n : Z) : (n < 0)%Z → rejected (Some n) = true.
Proof. intros Hn. unfold rejected. apply orb_true_iff. left. by apply Z.ltb_lt. Qed.

Lemma rejected_large (n : Z) : (2 ^ 63 ≤ n)%Z → rejected (Some n) = true.
Proof. intros Hn. unfold rejected. apply orb_true_iff. right. by apply Z.leb_le. Qed.

Lemma get_users_run skip limit email username s :
  routes.get_users skip limit email username s
  = if rejected (Some skip) || rejected (Some limit)
    then (Raise DataError, s)
    else (Return (UsersPublic.Build
                    (take (Z.to_nat limit)
                       (drop (Z.to_nat skip)
                          (filter (users_selected email username) (users s))))
                    (Z.of_nat (length (users s)))), s).
Proof.
  unfold routes.get_users. rewrite run_bind. unfold exec_count at 1.
  rewrite run_bind, run_read, run_ret, run_bind.
  rewrite (exec_all_paginated _ _ skip limit).
  2,3: unfold if_truthy; repeat case_match; reflexivity.
  destruct (rejected (Some skip) || rejected (Some limit)); [done|].
  rewrite run_ret. do 5 f_equal.
  apply list_filter_iff; intros u. unfold users_selected.
  destruct (truthy email) eqn:He.
  - destruct (truthy_Some_inv _ He) as (e & -> & He').
    rewrite if_truthy_true, matches_where by done.
    change (matches _ u) with true.
    rewrite andb_True, bool_decide_spec.
    split; [by intros [_ ->] | by intros [= ->]].
  - rewrite (if_truthy_false email) by done.
    destruct (truthy username) eqn:Hu.
    + destruct (truthy_Some_inv _ Hu) as (n & -> & Hu').
      rewrite if_truthy_true, matches_where by done.
      change (matches _ u) with true.
      rewrite andb_True, bool_decide_spec.
    split; [by intros [_ ->] | by intros [= ->]].
    + by rewrite (if_truthy_false username).
Qed.

Lemma get_orders_run user_id instrument_id start_date end_date type s :
  let results :=
    filter (λ o, orders_selected user_id instrument_id start_date end_date type o)
           (orders s) in
  crud.get_orders user_id instrument_id start_date end_date type s
  = (Return (OrdersPublic.Build results (Z.of_nat (length results))), s).
Proof.
  intros results. subst results.
  unfold crud.get_orders, orders_selected, if_truthy. rewrite run_bind.
  destruct instrument_id as [i|]; [destruct (truthy i)|];
    (destruct start_date as [sd|]; [destruct (truthy sd)|]);
    (destruct end_date as [ed|]; [destruct (truthy ed)|]);
    (destruct type as [ty|]; [destruct (truthy ty)|]);
    rewrite exec_all_unpaginated, run_ret by done;
    match goal with
    | |- (Return (OrdersPublic.Build ?l _), _) = (Return (OrdersPublic.Build ?r _), _) =>
        assert (l = r) as ->; [|done]
    end;
    apply list_filter_iff; intros o;
    unfold matches; simpl; rewrite ?andb_true_r; reflexivity.
Qed.


(** C4: whatever the store, [GET /users] returns, with the page of the
    users selected by the email or username filter, a [count] that is the
    number of rows of the users table, whatever [skip], [limit] and the
    filter (the response exists as soon as [skip] and [limit] are in the
    range of OFFSET and LIMIT, from 0 to below 2^63; any response there is
    has this [count]); [get_orders] returns the stored orders that the
    clauses of its statement select and, as [count], the length of this
    list; the two differ: [GET /users] can return a [count] that is not the
    length of its [data]. *)
Theorem listing_counts :
  (∀ s skip limit email username,
     (0 ≤ skip < 2 ^ 63)%Z → (0 ≤ limit < 2 ^ 63)%Z →
     routes.get_users skip limit email username s
     = (Return (UsersPublic.Build
                  (take (Z.to_nat limit)
                     (drop (Z.to_nat skip)
                        (filter (users_selected email username) (users s))))
                  (Z.of_nat (length (users s)))), s))
  ∧ (∀ s skip limit email username response s',
       routes.get_users skip limit email username s = (Return response, s') →
       UsersPublic.count response = Z.of_nat (length (users s)))
  ∧ (∀ s user_id instrument_id start_date end_date type,
       let data :=
         filter (λ o, orders_selected user_id instrument_id start_date end_date type o)
                (orders s) in
       crud.get_orders user_id instrument_id start_date end_date type s
       = (Return (OrdersPublic.Build data (Z.of_nat (length data))), s))
  ∧ (∃ s response,
       routes.get_users 0 100 (Some "b@x.com") None s = (Return response, s)
       ∧ UsersPublic.count response ≠ Z.of_nat (length (UsersPublic.data response))).
Proof.
  repeat split.
  - intros s skip limit email username Hskip Hlimit.
    by rewrite get_users_run, !rejected_in_range.
  - intros s skip limit email username response s'.
    rewrite get_users_run.
    destruct (rejected (Some skip) || rejected (Some limit)); [done|].
    by intros [= <- _].
  - intros s user_id instrument_id start_date end_date type.
    apply get_orders_run.
  - exists two_users. eexists. split; [vm_compute; reflexivity|]. done.
Qed.

End listing.

Lemma listing_counts_witness :
  routes.get_users 0 1 None (Some "b") two_users
  = (Return (UsersPublic.Build [bob] 2), two_users)
  ∧ (∀ response s', routes.get_users 0 1 None (Some "b") two_users = (Return response, s') →
       UsersPublic.count response = 2%Z).
Proof.
  destruct listing_counts as (Hreturns & Hcount & _).
  split.
  - apply (Hreturns two_users 0%Z 1%Z None (Some "b")); lia.
  - intros response s'. apply (Hcount two_users).
Defined.

Section falsy_filters.
Implicit Types (s : Store).

Lemma orders_selected_instrument user_id i start_date end_date type (o : Order) :
  truthy i = true →
  orders_selected user_id (Some i) start_date end_date type o
  ↔ col_eq o "instrument_id" (PInt i)
    ∧ orders_selected user_id None start_date end_date type o.
Proof.
  intros Hi. unfold orders_selected.
  rewrite (if_truthy_true i), (if_truthy_None (A := Z)) by done.
  rewrite !andb_True. change (Is_true true) with True. tauto.
Qed.

Lemma orders_selected_type user_id instrument_id start_date end_date t (o : Order) :
  truthy t = true →
  orders_selected user_id instrument_id start_date end_date (Some t) o
  ↔ col_eq o "type" (PStr t)
    ∧ orders_selected user_id instrument_id start_date end_date None o.
Proof.
  intros Ht. unfold orders_selected.
  rewrite (if_truthy_true t), (if_truthy_None (A := string)) by done.
  rewrite !andb_True. change (Is_true true) with True. tauto.
Qed.

(** C10: in [get_orders] and in the filters of [GET /users], a filter whose
    value is false ([instrument_id] 0, an empty [type], an empty [email] or
    [username]) gives the result of the call without this filter; a filter
    whose value is true narrows: the orders returned are those of the call
    without it that have this value in the column, the users returned are the
    page of the rows of this email, or else of this username, for [skip] and
    [limit] in the range of OFFSET and LIMIT, from 0 to below 2^63. *)
Theorem falsy_filters_are_ignored s :
  (∀ user_id instrument_id start_date end_date type,
     truthy instrument_id = false →
     crud.get_orders user_id instrument_id start_date end_date type s
     = crud.get_orders user_id None start_date end_date type s)
  ∧ (∀ user_id instrument_id start_date end_date type,
       truthy type = false →
       crud.get_orders user_id instrument_id start_date end_date type s
       = crud.get_orders user_id instrument_id start_date end_date None s)
  ∧ (∀ skip limit email username,
       truthy email = false →
       routes.get_users skip limit email username s
       = routes.get_users skip limit None username s)
  ∧ (∀ skip limit email username,
       truthy username = false →
       routes.get_users skip limit email username s
       = routes.get_users skip limit email None s)
  ∧ truthy (Some 0%Z) = false
  ∧ truthy (Some "") = false
  ∧ (∀ user_id i start_date end_date type,
       truthy i = true →
       ∃ unfiltered,
         crud.get_orders user_id None start_date end_date type s
         = (Return (OrdersPublic.Build unfiltered (Z.of_nat (length unfiltered))), s)
         ∧ let narrowed := filter (λ o, col_eq o "instrument_id" (PInt i)) unfiltered in
           crud.get_orders user_id (Some i) start_date end_date type s
           = (Return (OrdersPublic.Build narrowed (Z.of_nat (length narrowed))), s))
  ∧ (∀ user_id instrument_id start_date end_date t,
       truthy t = true →
       ∃ unfiltered,
         crud.get_orders user_id instrument_id start_date end_date None s
         = (Return (OrdersPublic.Build unfiltered (Z.of_nat (length unfiltered))), s)
         ∧ let narrowed := filter (λ o, col_eq o "type" (PStr t)) unfiltered in
           crud.get_orders user_id instrument_id start_date end_date (Some t) s
           = (Return (OrdersPublic.Build narrowed (Z.of_nat (length narrowed))), s))
  ∧ (∀ skip limit email username,
       (0 ≤ skip < 2 ^ 63)%Z → (0 ≤ limit < 2 ^ 63)%Z →
       routes.get_users skip limit email username s
       = (Return (UsersPublic.Build
                    (take (Z.to_nat limit) (drop (Z.to_nat skip)
                       (filter (users_selected email username) (users s))))
                    (Z.of_nat (length (users s)))), s)).
Proof.
  split; [|split; [|split; [|split; [|split; [|split; [|split; [|split]]]]]]].
  - intros user_id instrument_id start_date end_date type Hfalse.
    unfold crud.get_orders. by rewrite (if_truthy_false instrument_id).
  - intros user_id instrument_id start_date end_date type Hfalse.
    unfold crud.get_orders. by rewrite (if_truthy_false type).
  - intros skip limit email username Hfalse.
    unfold routes.get_users. by rewrite (if_truthy_false email).
  - intros skip limit email username Hfalse.
    unfold routes.get_users. by rewrite (if_truthy_false username).
  - reflexivity.
  - reflexivity.
  - intros user_id i start_date end_date type Hi.
    rewrite !get_orders_run. eexists. split; [reflexivity|].
    cbv zeta. rewrite list_filter_filter.
    match goal with
    | |- (Return (OrdersPublic.Build ?l _), _) = (Return (OrdersPublic.Build ?r _), _) =>
        assert (l = r) as ->; [|done]
    end.
    apply list_filter_iff; intros o. by apply orders_selected_instrument.
  - intros user_id instrument_id start_date end_date t Ht.
    rewrite !get_orders_run. eexists. split; [reflexivity|].
    cbv zeta. rewrite list_filter_filter.
    match goal with
    | |- (Return (OrdersPublic.Build ?l _), _) = (Return (OrdersPublic.Build ?r _), _) =>
        assert (l = r) as ->; [|done]
    end.
    apply list_filter_iff; intros o. by apply orders_selected_type.
  - intros skip limit email username Hskip Hlimit.
    by rewrite get_users_run, !rejected_in_range.
Qed.

End falsy_filters.

Lemma falsy_filters_are_ignored_witness :
  crud.get_orders 1 (Some 0%Z) None None (Some "") two_users
  = crud.get_orders 1 None None None None two_users
  ∧ routes.get_users 0 100 (Some "") (Some "") two_users
    = routes.get_users 0 100 None None two_users
  ∧ (crud.get_orders 1 (Some 4%Z) None None None two_users).1
    = Return (OrdersPublic.Build [alice_second_order] 1)
  ∧ routes.get_users 0 100 (Some "b@x.com") None two_users
    = (Return (UsersPublic.Build [bob] 2), two_users).
Proof.
  destruct (falsy_filters_are_ignored two_users)
    as (Hinstrument & Htype & Hemail & Husername & _ & _ & Hnarrow & _ & Husers).
  split; [|split; [|split]].
  - rewrite Hinstrument by reflexivity. apply Htype. reflexivity.
  - rewrite Hemail by reflexivity. apply Husername. reflexivity.
  - destruct (Hnarrow 1%Z 4%Z None None None) as (unfiltered & Hall & ->); [reflexivity|].
    rewrite get_orders_run in Hall. injection Hall as <-. vm_compute. reflexivity.
  - rewrite Husers by lia. reflexivity.
Defined.

(** ** Partial updates: [update_order] and [update_summary] *)

Section update_fields.
Context {engine : Engine}.
Implicit Types (s : Store) (obj : Row) (update_dict : gmap string pyval).


(** The attributes of the object after the loop over the items of the
    payload. *)
Lemma apply_update_lookup obj update_dict key :
  crud.apply_update obj update_dict !! key
  = match update_dict !! key with
    | Some value => if hasattr obj key then Some value else obj !! key
    | None => obj !! key
    end.
Proof.
  unfold crud.apply_update. revert key.
  apply (map_fold_weak_ind
           (λ r m, ∀ key, r !! key
              = match m !! key with
                | Some value => if hasattr obj key then Some value else obj !! key
                | None => obj !! key
                end)).
  - intros key. by rewrite lookup_empty.
  - intros i x m r Hi IH key.
    assert (hasattr r i = hasattr obj i) as Hattr.
    { unfold hasattr. by rewrite (IH i), Hi. }
    rewrite Hattr. unfold setattr.
    destruct (decide (i = key)) as [->|Hne].
    + rewrite lookup_insert_eq.
      destruct (hasattr obj key) eqn:Hkey.
      * by rewrite lookup_insert_eq.
      * by rewrite (IH key), Hi.
    + rewrite (lookup_insert_ne m) by done.
      destruct (hasattr obj i).
      * rewrite lookup_insert_ne by done. apply IH.
      * apply IH.
Qed.






Lemma update_order_run s obj update_dict :
  crud.update_order obj update_dict s
  = (Return (crud.apply_update obj (stored <$> update_dict)),
     with_orders (update_row obj (crud.apply_update obj (stored <$> update_dict))) s).
Proof. reflexivity. Qed.

Lemma update_summary_run s obj update_dict :
  crud.update_summary obj update_dict s
  = (Return (crud.apply_update obj (stored <$> update_dict)),
     with_summaries (update_row obj (crud.apply_update obj (stored <$> update_dict))) s).
Proof. reflexivity. Qed.


End update_fields.


(** * Further properties of the data-access layer *)

(** ** Users *)

Section users_access.
Context {security : Security} {engine : Engine}.
Implicit Types (s : Store) (user : User.t).

Lemma first_match_head_filter {T} (P : T → Prop) `{!∀ x, Decision (P x)} (l : list T) :
  first_match P l (head (filter P l)).
Proof.
  unfold first_match. destruct (head (filter P l)) as [x|] eqn:Hhead.
  - split.
    + by apply head_Some_elem_of, list_elem_of_filter in Hhead as [? _].
    + apply head_filter_Some in Hhead as (l1 & l2 & -> & Hl1).
      exists l1, l2. split; [done|]. by apply Forall_forall.
  - apply head_None in Hhead. intros y Hy HP.
    assert (y ∈ filter P l) as Hin by by apply list_elem_of_filter.
    rewrite Hhead in Hin. by apply elem_of_nil in Hin.
Qed.

(** The three lookups of a user never raise, never change the store, and
    return the first stored user with this email, username or id, or [None]
    when there is none. *)
Theorem user_lookups_return_first_match s :
  (∀ email, ∃ r, crud.get_user_by_email email s = (Return r, s)
                 ∧ first_match (λ u, User.email u = email) (users s) r)
  ∧ (∀ username, ∃ r, crud.get_user_by_username username s = (Return r, s)
                      ∧ first_match (λ u, User.username u = username) (users s) r)
  ∧ (∀ id, ∃ r, crud.get_user_by_id id s = (Return r, s)
                ∧ first_match (λ u, User.id u = id) (users s) r).
Proof.
  split; [|split]; intros x; eexists; split;
    [apply get_user_by_email_run | apply first_match_head_filter
    |apply get_user_by_username_run | apply first_match_head_filter
    |apply get_user_by_id_run | apply first_match_head_filter].
Qed.

Lemma authenticate_run s email username password :
  crud.authenticate email username password s
  = (Return
       (match
           (if truthy email
            then head (filter (λ u, Some (User.email u) = email) (users s))
            else head (filter (λ u, Some (User.username u) = username) (users s)))
         with
         | Some db_user =>
             if verify_password password (User.hashed_password db_user)
             then Some db_user else None
         | None => None
         end), s).
Proof.
  unfold crud.authenticate. rewrite run_bind.
  destruct (truthy email) eqn:He.
  - destruct (truthy_Some_inv _ He) as (e & -> & He').
    rewrite if_truthy_true, get_user_by_email_run by done.
    assert (filter (λ u, User.email u = e) (users s)
            = filter (λ u, Some (User.email u) = Some e) (users s)) as ->.
    { apply list_filter_iff. intros u. split; [by intros -> | by intros [= ->]]. }
    destruct (head _) as [db_user|]; [|done].
    by destruct (verify_password _ _).
  - rewrite (if_truthy_false email) by done.
    destruct username as [username|].
    + rewrite get_user_by_username_run.
      assert (filter (λ u, User.username u = username) (users s)
              = filter (λ u, Some (User.username u) = Some username) (users s)) as ->.
      { apply list_filter_iff. intros u. split; [by intros -> | by intros [= ->]]. }
      destruct (head _) as [db_user|]; [|done].
      by destruct (verify_password _ _).
    + rewrite run_ret. by rewrite head_filter_None.
Qed.

(** [authenticate] never raises and never changes the store; the user it
    returns is stored, is the one named by the email when the email is true
    and by the username otherwise, and its stored hash verifies the
    password. *)
Theorem authenticate_sound s email username password :
  ∃ r, crud.authenticate email username password s = (Return r, s)
       ∧ match r with
         | Some u =>
             u ∈ users s
             ∧ verify_password password (User.hashed_password u) = true
             ∧ (if truthy email then Some (User.email u) = email
                else Some (User.username u) = username)
         | None => True
         end.
Proof.
  eexists. split; [apply authenticate_run|].
  destruct (truthy email).
  - destruct (head _) as [u|] eqn:Hhead; [|done].
    destruct (verify_password _ _) eqn:Hverify; [|done].
    apply head_Some_elem_of, list_elem_of_filter in Hhead as [? ?]. done.
  - destruct (head _) as [u|] eqn:Hhead; [|done].
    destruct (verify_password _ _) eqn:Hverify; [|done].
    apply head_Some_elem_of, list_elem_of_filter in Hhead as [? ?]. done.
Qed.

(** A wrong password gives [None]: when the stored hash of the user that the
    email names does not verify the password, [authenticate] returns
    [None]. *)
Theorem authenticate_rejects_wrong_password s email username password user :
  truthy email = true →
  crud.get_user_by_email email s = (Return (Some user), s) →
  verify_password password (User.hashed_password user) = false →
  crud.authenticate (Some email) username password s = (Return None, s).
Proof.
  intros He Hget Hverify. unfold crud.authenticate.
  rewrite run_bind, if_truthy_true, Hget by done. by rewrite Hverify.
Qed.

(** With a true email the username plays no part. *)
Theorem authenticate_email_first s email username password :
  truthy email = true →
  crud.authenticate email username password s
  = crud.authenticate email None password s.
Proof.
  intros He. rewrite !authenticate_run. by rewrite He.
Qed.

End users_access.

Lemma authenticate_rejects_wrong_password_witness :
  crud.authenticate (security := test_security) (Some "a@x.com") None "wrong" alice_store
  = (Return None, alice_store).
Proof.
  apply (authenticate_rejects_wrong_password (security := test_security)
           alice_store "a@x.com" None "wrong" alice); reflexivity.
Defined.

Lemma authenticate_email_first_witness :
  crud.authenticate (security := test_security) (Some "a@x.com") (Some "b") "p" two_users
  = crud.authenticate (security := test_security) (Some "a@x.com") None "p" two_users.
Proof. apply authenticate_email_first. reflexivity. Defined.

Section users_roundtrip.
Context {security : Security} {engine : Engine}.
Implicit Types (s : Store) (user : User.t).

Lemma crud_create_user_run s user_create :
  crud.create_user user_create s
  = if decide (email_or_username_taken (users s) (new_user s user_create))
    then (Raise IntegrityError, with_user_id_seq (user_id_seq s + 1) s)
    else (Return (new_user s user_create),
          with_users (.++ [new_user s user_create])
            (with_user_id_seq (user_id_seq s + 1) s)).
Proof.
  unfold crud.create_user. rewrite run_bind, run_read, run_bind, run_modify.
  fold (new_user s user_create). by destruct (decide _).
Qed.

Lemma head_filter_app_fresh {T} (P : T → Prop) `{!∀ x, Decision (P x)} (l : list T) x :
  P x → (∀ y, y ∈ l → ¬ P y) → head (filter P (l ++ [x])) = Some x.
Proof.
  intros HP Hfresh. rewrite filter_app.
  assert (filter P l = []) as ->.
  { apply head_None. by apply head_filter_None. }
  simpl. by rewrite filter_cons_True.
Qed.

Lemma head_filter_app_found {T} (P : T → Prop) `{!∀ x, Decision (P x)} (l l' : list T) x :
  head (filter P l) = Some x → head (filter P (l ++ l')) = Some x.
Proof.
  intros Hhead. rewrite filter_app.
  destruct (filter P l); [done|]. done.
Qed.

(** Insert, then look up.  In a store whose user ids were issued by the
    sequence, for an email and a username that no stored user holds,
    [crud.create_user] returns a user with a new id, under which
    [get_user_by_id] finds it afterwards; the users found before are still
    found, and the ids are still issued by the sequence.  For an email or a
    username that a stored user holds, the unique index refuses the INSERT:
    [crud.create_user] raises [IntegrityError], the users are as before and
    the id is spent. *)
Theorem create_user_then_get_by_id s user_create :
  user_ids_issued s →
  ((∀ u, u ∈ users s → User.email u ≠ UserCreate.email user_create) →
   (∀ u, u ∈ users s → User.username u ≠ UserCreate.username user_create) →
   ∃ user s',
     crud.create_user user_create s = (Return user, s')
     ∧ (∀ u, u ∈ users s → User.id u ≠ User.id user)
     ∧ crud.get_user_by_id (User.id user) s' = (Return (Some user), s')
     ∧ (∀ id u, crud.get_user_by_id id s = (Return (Some u), s) →
                crud.get_user_by_id id s' = (Return (Some u), s'))
     ∧ user_ids_issued s')
  ∧ (∀ u, u ∈ users s →
       User.email u = UserCreate.email user_create
       ∨ User.username u = UserCreate.username user_create →
       crud.create_user user_create s
       = (Raise IntegrityError, with_user_id_seq (user_id_seq s + 1) s)).
Proof.
  intros Hissued. split.
  - intros Hemail Husername. eexists _, _. split.
    { rewrite crud_create_user_run.
      by rewrite decide_False by by apply email_or_username_free. }
    assert (∀ u, u ∈ users s → User.id u ≠ User.id (new_user s user_create)) as Hfresh.
    { intros u Hu. specialize (Hissued u Hu). simpl. lia. }
    split; [done|]. split; [|split].
    + rewrite get_user_by_id_run. simpl. do 2 f_equal.
      by apply head_filter_app_fresh.
    + intros id u. rewrite !get_user_by_id_run. intros [= Hhead]. simpl.
      do 2 f_equal. by apply head_filter_app_found.
    + intros u [Hu | ->%list_elem_of_singleton]%elem_of_app; simpl.
      * specialize (Hissued u Hu). lia.
      * lia.
  - intros u Hu Htaken. rewrite crud_create_user_run.
    rewrite decide_True; [done|]. apply Exists_exists. by exists u.
Qed.

(** Sign up, then log in.  When no stored user has the email, which is not
    empty, nor the username, and the hashing capability verifies what it
    hashed, the user that [crud.create_user] stores is the one
    [authenticate] returns for this email and password. *)
Theorem create_user_then_authenticate s user_create username :
  (∀ u, u ∈ users s → User.email u ≠ UserCreate.email user_create) →
  (∀ u, u ∈ users s → User.username u ≠ UserCreate.username user_create) →
  UserCreate.email user_create ≠ "" →
  verify_password (UserCreate.password user_create)
    (get_password_hash (UserCreate.password user_create)) = true →
  ∃ user s',
    crud.create_user user_create s = (Return user, s')
    ∧ crud.authenticate (Some (UserCreate.email user_create)) username
        (UserCreate.password user_create) s'
      = (Return (Some user), s').
Proof.
  intros Hfresh Hname Hemail%str_truthy_spec Hverify.
  eexists _, _. split.
  { rewrite crud_create_user_run.
    by rewrite decide_False by by apply email_or_username_free. }
  unfold crud.authenticate.
  rewrite run_bind, if_truthy_true, get_user_by_email_run by done. simpl.
  rewrite head_filter_app_fresh by done. simpl. by rewrite Hverify.
Qed.

(** Change the password, then log in.  When [change_password] returns, the
    user it returns is the one [authenticate] returns afterwards for this
    email and the new password, the hashing capability verifying what it
    hashed. *)
Theorem change_password_then_authenticate s email new_password username user' s' :
  email ≠ "" →
  verify_password new_password (get_password_hash new_password) = true →
  crud.change_password email new_password s = (Return user', s') →
  crud.authenticate (Some email) username new_password s' = (Return (Some user'), s').
Proof.
  intros Hemail%str_truthy_spec Hverify. unfold crud.change_password.
  rewrite run_bind, get_user_by_email_run.
  destruct (head _) as [user|] eqn:Hhead; [|done].
  rewrite run_bind. unfold commit_user. rewrite run_bind, run_read.
  destruct (decide _) as [|Hfree]; [done|].
  rewrite run_modify, run_ret. intros [= <- <-].
  unfold crud.authenticate.
  rewrite run_bind, if_truthy_true, get_user_by_email_run by done. simpl.
  assert (User.email user = email) as Huser.
  { by apply head_Some_elem_of, list_elem_of_filter in Hhead as [? _]. }
  rewrite (head_filter_update_user_row_changed _ _ _ _ Hhead).
  - simpl. by rewrite Hverify.
  - done.
  - intros Hne u Hu Hid Hu'. apply Hfree. split; [done|].
    apply Exists_exists. exists u. split; [done|]. split; [done|].
    left. simpl. by rewrite Hu'.
Qed.

Lemma get_user_by_email_Some s email user :
  crud.get_user_by_email email s = (Return (Some user), s) →
  user ∈ users s ∧ User.email user = email.
Proof.
  rewrite get_user_by_email_run. intros [= Hhead].
  apply head_Some_elem_of, list_elem_of_filter in Hhead. tauto.
Qed.

Lemma not_taken_by_another s user user' :
  unique_emails s → user ∈ users s →
  User.id user' = User.id user → User.email user' = User.email user →
  (∀ v, v ∈ users s → User.id v ≠ User.id user → User.username v ≠ User.username user') →
  ¬ taken_by_another (users s) user'.
Proof.
  intros Huniq Hin Hid Hemail Hfree (v & Hv & Hne & [He | Hn])%Exists_exists.
  - apply Hne. rewrite Hid. f_equal. apply Huniq; [done..|]. by rewrite He.
  - apply (Hfree v); [done | by rewrite <- Hid | done].
Qed.

(** [change_username] and [change_password] touch one attribute of one
    user, in a store whose emails are unique.  For a username that no other
    stored user holds, the user that [change_username] returns has the id and
    email of the user that the email names and the new username, with the
    password hash as before; [change_password], the username of the user
    being held by no other user, returns the user with the hash of the new
    password and the username as before.  In both, the user returned is
    stored, the users of other ids are stored as before, the number of users
    is the same and so are the other tables.  For a new username that another
    stored user holds, the unique index refuses the UPDATE:
    [change_username] raises [IntegrityError] and changes nothing. *)
Theorem change_touches_one_attribute s email user :
  unique_emails s →
  crud.get_user_by_email email s = (Return (Some user), s) →
  (∀ new_username,
     (∀ v, v ∈ users s → User.id v ≠ User.id user → User.username v ≠ new_username) →
     ∃ user' s',
       crud.change_username email new_username s = (Return user', s')
       ∧ User.id user' = User.id user ∧ User.email user' = email
       ∧ User.username user' = new_username
       ∧ User.hashed_password user' = User.hashed_password user
       ∧ user' ∈ users s'
       ∧ (∀ v, v ∈ users s → User.id v ≠ User.id user → v ∈ users s')
       ∧ length (users s') = length (users s)
       ∧ s' = with_users (λ _, users s') s)
  ∧ (∀ new_password,
     (∀ v, v ∈ users s → User.id v ≠ User.id user →
           User.username v ≠ User.username user) →
     ∃ user' s',
       crud.change_password email new_password s = (Return user', s')
       ∧ User.id user' = User.id user ∧ User.email user' = email
       ∧ User.username user' = User.username user
       ∧ User.hashed_password user' = get_password_hash new_password
       ∧ user' ∈ users s'
       ∧ (∀ v, v ∈ users s → User.id v ≠ User.id user → v ∈ users s')
       ∧ length (users s') = length (users s)
       ∧ s' = with_users (λ _, users s') s)
  ∧ (∀ new_username v,
       v ∈ users s → User.id v ≠ User.id user → User.username v = new_username →
       new_username ≠ User.username user →
       crud.change_username email new_username s = (Raise IntegrityError, s)).
Proof.
  intros Huniq Hget.
  destruct (get_user_by_email_Some _ _ _ Hget) as [Hin Hemail].
  split; [|split].
  - intros new_username Hfree. eexists _, _.
    split; [apply (change_username_run _ _ _ _ Hget);
            by apply (not_taken_by_another s user)|].
    repeat split; try done.
    + simpl. by apply elem_of_update_user_row_new.
    + intros v Hv Hne. by apply elem_of_update_user_row_other.
    + simpl. apply length_update_user_row.
  - intros new_password Hfree. eexists _, _.
    split; [apply (change_password_run _ _ _ _ Hget);
            by apply (not_taken_by_another s user)|].
    repeat split; try done.
    + simpl. by apply elem_of_update_user_row_new.
    + intros v Hv Hne. by apply elem_of_update_user_row_other.
    + simpl. apply length_update_user_row.
  - intros new_username v Hv Hne Hname Hnew. unfold crud.change_username.
    rewrite run_bind, Hget, run_bind. unfold commit_user.
    rewrite run_bind, run_read. rewrite decide_True; [done|]. split.
    + intros Heq%(f_equal User.username). by apply Hnew.
    + apply Exists_exists. exists v. split; [done|]. split; [done|]. by right.
Qed.

Lemma crud_delete_user_run s user :
  crud.delete_user user s
  = if decide (referred_to "user_id" (Some (PInt (User.id user)))
                 (orders s ++ summaries s ++ portfolios s))
    then (Raise IntegrityError, s)
    else (Return (), with_users (filter (λ u, User.id u ≠ User.id user)) s).
Proof.
  unfold crud.delete_user. rewrite run_bind, run_read. by destruct (decide _).
Qed.

(** [crud.delete_user] of a user to whom no order, no summary and no
    portfolio refers: afterwards no user of this id is found, the lookups of
    the other ids give what they gave, and a second deletion changes
    nothing.  When an order, a summary or a portfolio refers to the user, the
    foreign key refuses the DELETE: [crud.delete_user] raises
    [IntegrityError] and changes nothing. *)
Theorem delete_user_then_get_by_id s user :
  ((∀ row : Row, row ∈ orders s ++ summaries s ++ portfolios s →
      row !! "user_id" ≠ Some (PInt (User.id user))) →
   ∃ s', crud.delete_user user s = (Return (), s')
         ∧ crud.get_user_by_id (User.id user) s' = (Return None, s')
         ∧ (∀ id, id ≠ User.id user →
              (crud.get_user_by_id id s').1 = (crud.get_user_by_id id s).1)
         ∧ crud.delete_user user s' = (Return (), s'))
  ∧ (∀ row : Row, row ∈ orders s ++ summaries s ++ portfolios s →
       row !! "user_id" = Some (PInt (User.id user)) →
       crud.delete_user user s = (Raise IntegrityError, s)).
Proof.
  split.
  - intros Hfree.
    assert (¬ referred_to "user_id" (Some (PInt (User.id user)))
              (orders s ++ summaries s ++ portfolios s)) as Hnone.
    { intros (row & Hrow & Hrefers)%Exists_exists. by apply (Hfree row). }
    eexists. split; [by rewrite crud_delete_user_run, decide_False|].
    split; [|split].
    + rewrite get_user_by_id_run. rewrite head_filter_None; [done|].
      simpl. intros u Hu%list_elem_of_filter. tauto.
    + intros id Hne. rewrite !get_user_by_id_run. simpl. do 2 f_equal.
      rewrite list_filter_filter. apply list_filter_iff. intros u.
      split; [tauto|]. intros ->. done.
    + rewrite crud_delete_user_run. simpl. rewrite decide_False by done.
      f_equal. unfold with_users; simpl. f_equal.
      rewrite list_filter_filter. apply list_filter_iff. tauto.
  - intros row Hrow Hrefers. rewrite crud_delete_user_run.
    rewrite decide_True; [done|]. apply Exists_exists. by exists row.
Qed.

End users_roundtrip.

Lemma create_user_then_get_by_id_witness :
  (∃ user s',
     crud.create_user (security := test_security) (UserCreate.Build "b@x.com" "b" "q")
       alice_store
     = (Return user, s')
     ∧ crud.get_user_by_id (User.id user) s' = (Return (Some user), s'))
  ∧ crud.create_user (security := test_security) (UserCreate.Build "c@x.com" "a" "q")
      alice_store
    = (Raise IntegrityError, with_user_id_seq 2 alice_store).
Proof.
  destruct (create_user_then_get_by_id (security := test_security) alice_store
              (UserCreate.Build "b@x.com" "b" "q")) as [Hfresh _].
  { intros u ->%list_elem_of_singleton. simpl. lia. }
  destruct (create_user_then_get_by_id (security := test_security) alice_store
              (UserCreate.Build "c@x.com" "a" "q")) as [_ Htaken].
  { intros u ->%list_elem_of_singleton. simpl. lia. }
  split.
  - destruct Hfresh as (user & s' & Hrun & _ & Hget & _).
    + intros u ->%list_elem_of_singleton. discriminate.
    + intros u ->%list_elem_of_singleton. discriminate.
    + by exists user, s'.
  - apply (Htaken alice); [by apply list_elem_of_singleton | by right].
Defined.

Lemma create_user_then_authenticate_witness :
  ∃ user s',
    crud.create_user (security := test_security) (UserCreate.Build "b@x.com" "b" "q") alice_store
    = (Return user, s')
    ∧ crud.authenticate (security := test_security) (Some "b@x.com") None "q" s'
      = (Return (Some user), s').
Proof.
  apply (create_user_then_authenticate (security := test_security) alice_store
           (UserCreate.Build "b@x.com" "b" "q") None).
  - intros u ->%list_elem_of_singleton. discriminate.
  - intros u ->%list_elem_of_singleton. discriminate.
  - discriminate.
  - reflexivity.
Defined.

Lemma change_password_then_authenticate_witness :
  crud.authenticate (security := test_security) (Some "a@x.com") None "q"
    (with_users (λ _, [User.Build 1 "a@x.com" "a" "hashed:q"]) alice_store)
  = (Return (Some (User.Build 1 "a@x.com" "a" "hashed:q")),
     with_users (λ _, [User.Build 1 "a@x.com" "a" "hashed:q"]) alice_store).
Proof.
  apply (change_password_then_authenticate (security := test_security)
           alice_store "a@x.com" "q" None).
  - discriminate.
  - reflexivity.
  - reflexivity.
Defined.

Lemma change_touches_one_attribute_witness :
  (∃ user' s',
     crud.change_username "a@x.com" "z" two_users = (Return user', s')
     ∧ User.hashed_password user' = "hashed:p"
     ∧ bob ∈ users s')
  ∧ crud.change_username "a@x.com" "b" two_users = (Raise IntegrityError, two_users).
Proof.
  destruct (change_touches_one_attribute (security := test_security) two_users "a@x.com" alice)
    as (Husername & _ & Htaken); [apply unique_emails_two_users | reflexivity |].
  split.
  - destruct (Husername "z") as (user' & s' & Hrun & _ & _ & _ & Hhash & _ & Hothers & _).
    { intros v Hv Hne. unfold two_users in Hv. simpl in Hv.
      apply elem_of_cons in Hv as [->| ->%list_elem_of_singleton]; discriminate. }
    exists user', s'. split; [done|]. split; [done|].
    apply Hothers; [|done]. apply elem_of_cons. right. by apply list_elem_of_singleton.
  - apply (Htaken "b" bob); [| done | reflexivity | discriminate].
    apply elem_of_cons. right. by apply list_elem_of_singleton.
Defined.

Lemma delete_user_then_get_by_id_witness :
  (∃ s', crud.delete_user bob two_users = (Return (), s')
         ∧ crud.get_user_by_id 2 s' = (Return None, s')
         ∧ (crud.get_user_by_id 1 s').1 = (crud.get_user_by_id 1 two_users).1)
  ∧ crud.delete_user alice two_users = (Raise IntegrityError, two_users).
Proof.
  split.
  - destruct (proj1 (delete_user_then_get_by_id two_users bob))
      as (s' & Hrun & Hgone & Hother & _).
    + intros row Hrow. unfold two_users in Hrow. simpl in Hrow.
      apply elem_of_cons in Hrow as [->| ->%list_elem_of_singleton]; discriminate.
    + exists s'. split; [exact Hrun|]. split; [exact Hgone|].
      apply Hother. simpl. lia.
  - apply (proj2 (delete_user_then_get_by_id two_users alice) alice_order).
    + apply elem_of_cons. by left.
    + reflexivity.
Defined.

(** * Further properties of the user routes *)

Section routes_integrity.
Context {security : Security} {engine : Engine}.
Implicit Types (s : Store) (user : User.t).

(** ** [GET /users/{user_id}] *)

(** [GET /users/{user_id}] answers with the first stored user of this id,
    and with the 400 "No user exists with this id." when there is none; it
    never changes the store. *)
Theorem get_user_by_id_found_or_400 s user_id :
  (∀ user, crud.get_user_by_id user_id s = (Return (Some user), s) →
     routes.get_user_by_id user_id s = (Return user, s))
  ∧ ((∀ u, u ∈ users s → User.id u ≠ user_id) →
     routes.get_user_by_id user_id s
     = (Raise (HTTPException 400 "No user exists with this id."), s))
  ∧ (routes.get_user_by_id user_id s).2 = s.
Proof.
  unfold routes.get_user_by_id. rewrite run_bind. split; [|split].
  - by intros user ->.
  - intros Habsent. rewrite get_user_by_id_run. by rewrite head_filter_None.
  - rewrite get_user_by_id_run. by destruct (head _).
Qed.

(** ** The outcomes of [DELETE /users/{user_id}] *)

(** A second [DELETE] of the same id gets the 400: once
    [DELETE /users/{user_id}] has returned the user, the same request fails
    with the not-found error and changes nothing. *)
Theorem delete_user_twice s user_id user s' :
  routes.delete_user user_id s = (Return user, s') →
  routes.delete_user user_id s' = (Raise not_found, s').
Proof.
  rewrite (delete_user_run s).
  destruct (head _) as [found|] eqn:Hfound; [|done].
  cbv zeta. destruct (head (filter _ (summaries s))) as [summary|]; [|done].
  destruct (decide _); [done|].
  intros [= <- <-]. rewrite delete_user_run.
  rewrite head_filter_None; [done|].
  simpl. intros u [Hne _]%list_elem_of_filter Hid. apply Hne.
  apply head_Some_elem_of, list_elem_of_filter in Hfound as [-> _]. done.
Qed.

(** ** Integrity *)

Lemma owned_by_more_users s s' (row : Row) :
  (∀ u, u ∈ users s → ∃ u', u' ∈ users s' ∧ User.id u' = User.id u) →
  owned_by_stored_user s row → owned_by_stored_user s' row.
Proof.
  intros Husers (u & Hu & Hrow). destruct (Husers u Hu) as (u' & Hu' & Hid).
  exists u'. by rewrite Hid.
Qed.

(** The signup keeps the integrity of the store, whether it succeeds or is
    refused. *)
Theorem create_user_keeps_integrity s user_in :
  integrity s → integrity (routes.create_user user_in s).2.
Proof.
  intros [Hids Hemails Horders Hsummaries Hone]. rewrite create_user_run.
  destruct (head _) as [found|]; [done|].
  destruct (decide (email_or_username_taken _ _)) as [|Hfree].
  { split; simpl; [|done..]. intros u Hu. specialize (Hids u Hu). simpl. lia. }
  assert (∀ u, u ∈ users s → User.email u ≠ UserCreate.email user_in) as Hfresh'.
  { intros u Hu Hemail. apply Hfree, Exists_exists. exists u. split; [done|]. by left. }
  assert (∀ r : Row, r ∈ summaries s →
            r !! "user_id" ≠ Some (PInt (user_id_seq s + 1))) as Hunused.
  { intros r Hr Huser. destruct (Hsummaries r Hr) as (u & Hu & Hrow).
    rewrite Hrow in Huser. injection Huser as Hid.
    specialize (Hids u Hu). lia. }
  destruct (decide (has_summary _ _)) as [Hhas|_].
  { apply Exists_exists in Hhas as (r & Hr & Huser). by destruct (Hunused r Hr). }
  simpl.
  assert (∀ row : Row, owned_by_stored_user s row →
                       owned_by_stored_user (after_signup s user_in) row) as Hgrow.
  { intros row. apply owned_by_more_users. intros u Hu. exists u. split; [|done].
    simpl. apply elem_of_app. by left. }
  split; simpl.
  - intros u [Hu | ->%list_elem_of_singleton]%elem_of_app; simpl.
    + specialize (Hids u Hu). lia.
    + lia.
  - intros u v [Hu | ->%list_elem_of_singleton]%elem_of_app
      [Hv | ->%list_elem_of_singleton]%elem_of_app Hemail; simpl in *.
    + by apply Hemails.
    + by destruct (Hfresh' u Hu).
    + by destruct (Hfresh' v Hv).
    + done.
  - intros o Ho. apply Hgrow. by apply Horders.
  - intros r [Hr | ->%list_elem_of_singleton]%elem_of_app.
    + apply Hgrow. by apply Hsummaries.
    + exists (new_user s user_in). split; [|done].
      simpl. apply elem_of_app. right. by apply list_elem_of_singleton.
  - intros r r' [Hr | ->%list_elem_of_singleton]%elem_of_app
      [Hr' | ->%list_elem_of_singleton]%elem_of_app Huser.
    + by apply Hone.
    + destruct (Hunused r Hr). by rewrite Huser.
    + destruct (Hunused r' Hr'). by rewrite <- Huser.
    + done.
Qed.

Lemma bind_keeps {A B} (P : Store → Prop) (m : Session A) (f : A → Session B) s :
  P (m s).2 → (∀ a s', P s' → P (f a s').2) → P ((m ≫= f) s).2.
Proof.
  intros Hm Hf. rewrite run_bind. destruct (m s) as [[a|e] s']; simpl in *; auto.
Qed.

Lemma fmap_keeps {A B} (P : Store → Prop) (g : A → B) (m : Session A) s :
  P (m s).2 → P ((g <$> m) s).2.
Proof.
  intros Hm. rewrite run_fmap. by destruct (m s) as [[a|e] s'].
Qed.

Lemma getattr_email_keeps (P : Store → Prop) (user : option User.t) s :
  P s → P (getattr_email user s).2.
Proof. by destruct user. Qed.

Lemma update_user_row_keeps_integrity s user user' :
  user ∈ users s →
  User.id user' = User.id user → User.email user' = User.email user →
  integrity s → integrity (with_users (update_user_row user user') s).
Proof.
  intros Hin Hid Hemail [Hids Hemails Horders Hsummaries Hone].
  assert (∀ row : Row, owned_by_stored_user s row →
            owned_by_stored_user (with_users (update_user_row user user') s) row)
    as Hgrow.
  { intros row. apply owned_by_more_users. intros u Hu. simpl.
    destruct (decide (User.id u = User.id user)) as [Hsame|Hother].
    - exists user'. split; [|congruence]. by apply elem_of_update_user_row_new.
    - exists u. split; [|done]. by apply elem_of_update_user_row_other. }
  split; simpl; [| |by auto..].
  - intros u [[Hu _] | ->]%elem_of_update_user_row.
    + by apply Hids.
    + rewrite Hid. by apply Hids.
  - intros a b [[Ha Ha'] | ->]%elem_of_update_user_row
      [[Hb Hb'] | ->]%elem_of_update_user_row Heq.
    + by apply Hemails.
    + destruct Ha' as [Ha' | ->]; [|by apply Hemails].
      destruct Ha'. rewrite Hemail in Heq. by rewrite (Hemails a user Ha Hin Heq).
    + destruct Hb' as [Hb' | ->]; [|by apply Hemails].
      destruct Hb'. rewrite Hemail in Heq.
      by rewrite (Hemails b user Hb Hin (eq_sym Heq)).
    + done.
Qed.

Lemma commit_user_keeps_integrity s user user' :
  user ∈ users s →
  User.id user' = User.id user → User.email user' = User.email user →
  integrity s → integrity (commit_user user user' s).2.
Proof.
  intros Hin Hid Hemail Hs. unfold commit_user. rewrite run_bind, run_read.
  destruct (decide _); [done|]. rewrite run_modify.
  by apply update_user_row_keeps_integrity.
Qed.

Lemma change_username_keeps_integrity s email new_username :
  integrity s → integrity (crud.change_username email new_username s).2.
Proof.
  intros Hs. unfold crud.change_username. rewrite run_bind, get_user_by_email_run.
  destruct (head _) as [user|] eqn:Hhead; [|done].
  apply bind_keeps; [|done].
  apply commit_user_keeps_integrity; [|done..].
  by apply head_Some_elem_of, list_elem_of_filter in Hhead as [_ ?].
Qed.

Lemma change_password_keeps_integrity s email new_password :
  integrity s → integrity (crud.change_password email new_password s).2.
Proof.
  intros Hs. unfold crud.change_password. rewrite run_bind, get_user_by_email_run.
  destruct (head _) as [user|] eqn:Hhead; [|done].
  apply bind_keeps; [|done].
  apply commit_user_keeps_integrity; [|done..].
  by apply head_Some_elem_of, list_elem_of_filter in Hhead as [_ ?].
Qed.

(** The update of a user keeps the integrity of the store, whatever the
    outcome of the request. *)
Theorem update_user_keeps_integrity s user_id data :
  integrity s → integrity (routes.update_user user_id data s).2.
Proof.
  intros Hs. unfold routes.update_user.
  apply bind_keeps; [by rewrite get_user_by_id_run|].
  intros user s0 Hs0. destruct (negb _ && negb _); [done|].
  apply bind_keeps.
  { unfold if_truthy.
    destruct (UserUpdate.username data) as [new_username|];
      [destruct (truthy new_username)|]; [|done..].
    apply bind_keeps; [by apply getattr_email_keeps|].
    intros email s1 Hs1. apply fmap_keeps.
    by apply change_username_keeps_integrity. }
  intros updated_user s1 Hs1. apply bind_keeps.
  { unfold if_truthy.
    destruct (UserUpdate.password data) as [new_password|];
      [destruct (truthy new_password)|]; [|done..].
    apply bind_keeps; [by apply getattr_email_keeps|].
    intros email s2 Hs2. apply fmap_keeps.
    by apply change_password_keeps_integrity. }
  by intros [updated|] s2 Hs2.
Qed.

(** The deletion of a user keeps the integrity of the store, whatever the
    outcome of the request: no order and no summary is left without its
    owner. *)
Theorem delete_user_keeps_integrity s user_id :
  integrity s → integrity (routes.delete_user user_id s).2.
Proof.
  intros [Hids Hemails Horders Hsummaries Hone]. rewrite delete_user_run.
  destruct (head _) as [user|] eqn:Huser; [|done].
  apply head_Some_elem_of, list_elem_of_filter in Huser as [Hid Hin].
  cbv zeta.
  destruct (head (filter _ (summaries s))) as [summary|] eqn:Hsummary.
  - apply head_Some_elem_of, list_elem_of_filter in Hsummary as [Howner Hstored].
    destruct (decide _) as [Hrefers|Hfree].
    + split; simpl; [done | done | | |].
      * intros o Ho. apply (without_orders_of_subset user s) in Ho as [Ho _].
        destruct (Horders o Ho) as (u & Hu & Hrow). by exists u.
      * intros r [Hr _]%elem_of_delete_row.
        destruct (Hsummaries r Hr) as (u & Hu & Hrow). by exists u.
      * intros r r' [Hr _]%elem_of_delete_row [Hr' _]%elem_of_delete_row.
        by apply Hone.
    + split; simpl.
      * intros u [_ Hu]%list_elem_of_filter. by apply Hids.
      * intros u v [_ Hu]%list_elem_of_filter [_ Hv]%list_elem_of_filter.
        by apply Hemails.
      * intros o Ho. apply (without_orders_of_subset user s) in Ho as [Ho Hne].
        destruct (Horders o Ho) as (u & Hu & Hrow). exists u. split; [|done].
        apply list_elem_of_filter. split; [|done]. intros Heq. apply Hne.
        by rewrite Hrow, Heq.
      * intros r [Hr Hpk]%elem_of_delete_row.
        destruct (Hsummaries r Hr) as (u & Hu & Hrow). exists u. split; [|done].
        apply list_elem_of_filter. split; [|done]. intros Heq. apply Hpk.
        f_equal. apply Hone; [done..|]. by rewrite Hrow, Howner, Heq, Hid.
      * intros r r' [Hr _]%elem_of_delete_row [Hr' _]%elem_of_delete_row.
        by apply Hone.
  - split; simpl; [done | done | | done | done].
    intros o Ho. apply (without_orders_of_subset user s) in Ho as [Ho _].
    destruct (Horders o Ho) as (u & Hu & Hrow). by exists u.
Qed.

End routes_integrity.

Lemma integrity_alice_store : integrity alice_store.
Proof.
  split.
  - intros u ->%list_elem_of_singleton. simpl. lia.
  - intros u v ->%list_elem_of_singleton ->%list_elem_of_singleton _. reflexivity.
  - intros o Ho. by apply elem_of_nil in Ho.
  - intros r ->%list_elem_of_singleton. exists alice.
    split; [by apply list_elem_of_singleton | reflexivity].
  - intros r r' ->%list_elem_of_singleton ->%list_elem_of_singleton _. reflexivity.
Defined.

Lemma get_user_by_id_found_or_400_witness :
  routes.get_user_by_id 1 alice_store = (Return alice, alice_store)
  ∧ routes.get_user_by_id 2 alice_store
    = (Raise (HTTPException 400 "No user exists with this id."), alice_store).
Proof.
  split.
  - apply (proj1 (get_user_by_id_found_or_400 alice_store 1)). reflexivity.
  - apply (proj1 (proj2 (get_user_by_id_found_or_400 alice_store 2))).
    intros u ->%list_elem_of_singleton. done.
Defined.

Lemma delete_user_twice_witness :
  routes.delete_user 1 (with_summaries (λ _, []) (with_users (λ _, []) alice_store))
  = (Raise not_found, with_summaries (λ _, []) (with_users (λ _, []) alice_store)).
Proof. apply (delete_user_twice alice_store 1 alice). reflexivity. Defined.

Lemma create_user_keeps_integrity_witness :
  integrity (routes.create_user (security := test_security)
               (UserCreate.Build "b@x.com" "b" "q") alice_store).2.
Proof. apply create_user_keeps_integrity, integrity_alice_store. Defined.

Lemma update_user_keeps_integrity_witness :
  integrity (routes.update_user (security := test_security) 1
               (UserUpdate.Build (Some "z") (Some "q")) alice_store).2.
Proof. apply update_user_keeps_integrity, integrity_alice_store. Defined.

Lemma delete_user_keeps_integrity_witness :
  integrity (routes.delete_user 1 alice_store).2.
Proof. apply delete_user_keeps_integrity, integrity_alice_store. Defined.

Section routes_roundtrip.
Context {security : Security} {engine : Engine}.
Implicit Types (s : Store) (user : User.t).

Lemma filter_all {T} (P : T → Prop) `{!∀ x, Decision (P x)} (l : list T) :
  (∀ x, x ∈ l → P x) → filter P l = l.
Proof.
  intros Hl. induction l as [|x l IH]; [done|].
  rewrite filter_cons_True by (apply Hl; left).
  f_equal. apply IH. intros y Hy. apply Hl. by right.
Qed.

Lemma filter_none {T} (P : T → Prop) `{!∀ x, Decision (P x)} (l : list T) :
  (∀ x, x ∈ l → ¬ P x) → filter P l = [].
Proof. intros Hl. apply head_None. by apply head_filter_None. Qed.

Lemma pk_new_summary s user :
  pk (new_summary s user) = Some (PInt (summary_id_seq s + 1)).
Proof. unfold pk, new_summary. apply lookup_insert_eq. Qed.

(** Sign up, read, delete.  In a store that keeps its integrity, whose
    summary ids were issued by the sequence and whose portfolios belong to
    stored users, a signup with an email and a username that no stored user
    holds returns a user that [GET /users/{user_id}] then returns under its
    id; the [DELETE] of this id returns the same user and gives back the
    store of before the signup, the two id sequences apart. *)
Theorem signup_read_delete s user_in :
  integrity s → summary_ids_issued s →
  (∀ p : Row, p ∈ portfolios s → owned_by_stored_user s p) →
  (∀ u, u ∈ users s → User.email u ≠ UserCreate.email user_in) →
  (∀ u, u ∈ users s → User.username u ≠ UserCreate.username user_in) →
  ∃ user s1,
    routes.create_user user_in s = (Return user, s1)
    ∧ routes.get_user_by_id (User.id user) s1 = (Return user, s1)
    ∧ routes.delete_user (User.id user) s1
      = (Return user,
         with_summary_id_seq (summary_id_seq s + 1)
           (with_user_id_seq (user_id_seq s + 1) s)).
Proof.
  intros [Hids _ Horders Hsummaries _] Hsids Hportfolios Hfresh Hname.
  exists (new_user s user_in), (after_signup s user_in).
  assert (∀ u, u ∈ users s → User.id u ≠ user_id_seq s + 1)%Z as Hnew.
  { intros u Hu. specialize (Hids u Hu). lia. }
  assert (∀ row : Row, owned_by_stored_user s row →
            row !! "user_id" ≠ Some (PInt (user_id_seq s + 1))) as Hunused.
  { intros row (u & Hu & Hrow). rewrite Hrow. intros [= Hid]. by apply (Hnew u). }
  split.
  { apply create_user_run_fresh; [done..|].
    intros (r & Hr & Huser)%Exists_exists. by apply (Hunused r (Hsummaries r Hr)). }
  assert (head (filter (λ u, User.id u = user_id_seq s + 1)%Z
                  (users s ++ [new_user s user_in])) = Some (new_user s user_in))
    as Hfound by by apply head_filter_app_fresh.
  assert (filter (λ o : Row, o !! "user_id" = Some (PInt (user_id_seq s + 1)))
            (orders s) = []) as Hnone.
  { apply filter_none. intros o Ho. by apply Hunused, Horders. }
  assert (delete_row (new_summary s (new_user s user_in))
            (summaries s ++ [new_summary s (new_user s user_in)]) = summaries s)
    as Hdeleted.
  { unfold delete_row. rewrite filter_app, filter_all.
    - rewrite filter_cons_False by tauto. by rewrite app_nil_r.
    - intros r Hr. destruct (Hsids r Hr) as (n & Hn & Hle).
      rewrite pk_new_summary. unfold pk. rewrite Hn. intros [= ->]. lia. }
  split.
  - unfold routes.get_user_by_id. rewrite run_bind, get_user_by_id_run. simpl.
    by rewrite Hfound.
  - rewrite delete_user_run. simpl (User.id _). simpl (users _). rewrite Hfound.
    cbv zeta. simpl (summaries _).
    rewrite (head_filter_app_fresh _ (summaries s) (new_summary s (new_user s user_in)));
      [|done | by auto].
    unfold without_orders_of. simpl (User.id _). simpl (orders (after_signup _ _)).
    rewrite Hnone. simpl (orders _). simpl (summaries _). simpl (portfolios _).
    rewrite Hdeleted. rewrite decide_False.
    + f_equal. unfold with_users, with_summaries, with_orders,
        with_user_id_seq, with_summary_id_seq. simpl. f_equal.
      * rewrite filter_app, filter_all by done.
        rewrite filter_cons_False by (simpl; tauto). by rewrite app_nil_r.
      * done.
    + intros (row & Hrow & Hrefers)%Exists_exists. apply (Hunused row); [|done].
      rewrite !elem_of_app in Hrow. simpl in Hrow.
      destruct Hrow as [Ho | [Hr | Hp]]; auto.
Qed.

(** Each of the two changes of [PUT /users/{user_id}] alone leaves the
    other attribute as it was, in a store whose emails are unique: with a
    non-empty username that no other stored user holds and no true password
    the user stored keeps its hash, and with a non-empty password and no true
    username it keeps its username, which no other stored user holds.  The
    row updated is the last of the users table. *)
Theorem update_user_one_field s user_id data user :
  unique_emails s →
  crud.get_user_by_id user_id s = (Return (Some user), s) →
  (∀ new_username,
     UserUpdate.username data = Some new_username → new_username ≠ "" →
     truthy (UserUpdate.password data) = false →
     (∀ v, v ∈ users s → User.id v ≠ User.id user → User.username v ≠ new_username) →
     let user' := User.with_username new_username user in
     routes.update_user user_id data s
     = (Return user', with_users (update_user_row user user') s)
     ∧ User.hashed_password user' = User.hashed_password user)
  ∧ (∀ new_password,
       truthy (UserUpdate.username data) = false →
       UserUpdate.password data = Some new_password → new_password ≠ "" →
       (∀ v, v ∈ users s → User.id v ≠ User.id user →
             User.username v ≠ User.username user) →
       let user' := User.with_hashed_password (get_password_hash new_password) user in
       routes.update_user user_id data s
       = (Return user', with_users (update_user_row user user') s)
       ∧ User.username user' = User.username user).
Proof.
  intros Huniq Hget.
  destruct (get_user_by_id_Some _ _ _ Hget) as [Hin Hid].
  assert (crud.get_user_by_email (User.email user) s = (Return (Some user), s)) as Hemail.
  { rewrite get_user_by_email_run. do 2 f_equal.
    apply head_filter_unique; [done..|]. intros y Hy Hey. by apply Huniq. }
  split.
  - intros new_username Husername Hu%str_truthy_spec Hp Hfree user'. split; [|done].
    unfold routes.update_user. rewrite run_bind, Hget, Husername, Hp.
    unfold truthy at 1, optional_truthy. rewrite Hu. cbn [negb andb].
    rewrite run_bind, if_truthy_true by done.
    rewrite run_bind. unfold getattr_email at 1. rewrite run_ret.
    rewrite run_fmap, (change_username_run _ _ _ _ Hemail)
      by by apply (not_taken_by_another s user).
    by rewrite run_bind, if_truthy_false, run_ret by done.
  - intros new_password Hu Hpassword Hp%str_truthy_spec Hfree user'. split; [|done].
    unfold routes.update_user. rewrite run_bind, Hget, Hpassword, Hu.
    unfold truthy at 1, optional_truthy. rewrite Hp. cbn [negb andb].
    rewrite run_bind, if_truthy_false, run_ret by done.
    rewrite run_bind, if_truthy_true by done.
    rewrite run_bind. unfold getattr_email at 1. rewrite run_ret.
    by rewrite run_fmap, (change_password_run _ _ _ _ Hemail)
      by by apply (not_taken_by_another s user).
Qed.

(** ** [GET /users] *)

(** The email filter comes first: with a true email the username filter
    plays no part. *)
Theorem get_users_email_first s skip limit email username :
  truthy email = true →
  routes.get_users skip limit email username s
  = routes.get_users skip limit email None s.
Proof.
  intros (e & -> & He)%truthy_Some_inv. unfold routes.get_users.
  by rewrite !if_truthy_true.
Qed.

(** The page of [GET /users]: a negative [skip] or [limit] makes the engine
    refuse the statement; otherwise the response holds at most [limit] users,
    taken in storage order from the stored users, and none when [skip] is at
    least the number of users; the store is never changed. *)
Theorem get_users_page s skip limit email username :
  ((skip < 0)%Z ∨ (limit < 0)%Z →
   routes.get_users skip limit email username s = (Raise DataError, s))
  ∧ (∀ response s',
       routes.get_users skip limit email username s = (Return response, s') →
       s' = s
       ∧ (Z.of_nat (length (UsersPublic.data response)) ≤ limit)%Z
       ∧ (Z.of_nat (length (UsersPublic.data response)) ≤ UsersPublic.count response)%Z
       ∧ UsersPublic.data response `sublist_of` users s
       ∧ ((Z.of_nat (length (users s)) ≤ skip)%Z → UsersPublic.data response = [])).
Proof.
  rewrite get_users_run. split.
  - intros Hneg.
    assert (rejected (Some skip) || rejected (Some limit) = true) as ->; [|done].
    apply orb_true_iff. destruct Hneg; [left | right]; by apply rejected_negative.
  - intros response s'.
    destruct (rejected (Some skip) || rejected (Some limit)) eqn:Hneg; [done|].
    apply orb_false_iff in Hneg as [Hskip Hlimit]. unfold rejected in Hskip, Hlimit.
    apply orb_false_iff in Hskip as [Hskip%Z.ltb_ge _].
    apply orb_false_iff in Hlimit as [Hlimit%Z.ltb_ge _].
    intros [= <- <-]. simpl.
    set (selected := filter (users_selected email username) (users s)).
    assert (take (Z.to_nat limit) (drop (Z.to_nat skip) selected)
              `sublist_of` users s) as Hsub.
    { etrans; [apply sublist_take|]. etrans; [apply sublist_drop|].
      apply sublist_filter. }
    split; [done|]. split; [|split; [|split; [done|]]].
    + rewrite length_take. lia.
    + apply sublist_length in Hsub. lia.
    + intros Hend. rewrite drop_ge; [by destruct (Z.to_nat limit)|].
      pose proof (length_filter (users_selected email username) (users s)) as Hlen.
      fold selected in Hlen. lia.
Qed.

End routes_roundtrip.

Lemma summary_ids_issued_alice_store : summary_ids_issued alice_store.
Proof.
  intros r ->%list_elem_of_singleton. exists 1%Z. split; [reflexivity|]. simpl. lia.
Defined.

Lemma signup_read_delete_witness :
  ∃ user s1,
    routes.create_user (security := test_security) (UserCreate.Build "b@x.com" "b" "q") alice_store
    = (Return user, s1)
    ∧ routes.get_user_by_id (User.id user) s1 = (Return user, s1)
    ∧ routes.delete_user (User.id user) s1
      = (Return user, with_summary_id_seq 2 (with_user_id_seq 2 alice_store)).
Proof.
  apply (signup_read_delete (security := test_security) alice_store
           (UserCreate.Build "b@x.com" "b" "q")).
  - apply integrity_alice_store.
  - apply summary_ids_issued_alice_store.
  - intros p Hp. by apply elem_of_nil in Hp.
  - intros u ->%list_elem_of_singleton. discriminate.
  - intros u ->%list_elem_of_singleton. discriminate.
Defined.

Lemma update_user_one_field_witness :
  routes.update_user (security := test_security) 1 (UserUpdate.Build (Some "z") None) two_users
  = (Return (User.Build 1 "a@x.com" "z" "hashed:p"),
     with_users (λ _, [bob; User.Build 1 "a@x.com" "z" "hashed:p"]) two_users)
  ∧ routes.update_user (security := test_security) 1 (UserUpdate.Build (Some "") (Some "q"))
      two_users
    = (Return (User.Build 1 "a@x.com" "a" "hashed:q"),
       with_users (λ _, [bob; User.Build 1 "a@x.com" "a" "hashed:q"]) two_users).
Proof.
  destruct (update_user_one_field (security := test_security) two_users 1
              (UserUpdate.Build (Some "z") None) alice) as [Husername _].
  { apply unique_emails_two_users. }
  { reflexivity. }
  destruct (update_user_one_field (security := test_security) two_users 1
              (UserUpdate.Build (Some "") (Some "q")) alice) as [_ Hpassword].
  { apply unique_emails_two_users. }
  { reflexivity. }
  split.
  - apply (Husername "z"); [reflexivity | discriminate | reflexivity |].
    intros v Hv Hne. unfold two_users in Hv. simpl in Hv.
    apply elem_of_cons in Hv as [->| ->%list_elem_of_singleton]; discriminate.
  - apply (Hpassword "q"); [reflexivity | reflexivity | discriminate |].
    intros v Hv Hne. unfold two_users in Hv. simpl in Hv.
    apply elem_of_cons in Hv as [->| ->%list_elem_of_singleton];
      [by destruct Hne | discriminate].
Defined.

Lemma get_users_email_first_witness :
  routes.get_users 0 100 (Some "b@x.com") (Some "a") two_users
  = routes.get_users 0 100 (Some "b@x.com") None two_users.
Proof. apply get_users_email_first. reflexivity. Defined.

Lemma get_users_page_witness :
  routes.get_users (-1) 100 None None two_users = (Raise DataError, two_users)
  ∧ (∀ response s',
       routes.get_users 5 100 None None two_users = (Return response, s') →
       UsersPublic.data response = []).
Proof.
  split.
  - apply (proj1 (get_users_page two_users (-1) 100 None None)). left. lia.
  - intros response s' Hrun.
    destruct (proj2 (get_users_page two_users 5 100 None None) response s' Hrun)
      as (_ & _ & _ & _ & Hend).
    apply Hend. simpl. lia.
Defined.

(** * Further properties of the orders *)

Section orders.
Context {engine : Engine}.
Implicit Types (s : Store) (o : Row).

Lemma col_ge_spec o column d :
  col_ge o column d
  ↔ ∃ t, o !! column = Some (PDate t) ∧ (timestamp d ≤ timestamp t)%Z.
Proof.
  unfold col_ge. destruct (o !! column) as [[| | | |t]|]; simpl;
    try (split; [done | by intros (t' & [=] & _)]).
  rewrite Is_true_true, Z.leb_le. split.
  - intros Hle. by exists t.
  - by intros (t' & [= ->] & Hle).
Qed.

Lemma col_le_spec o column d :
  col_le o column d
  ↔ ∃ t, o !! column = Some (PDate t) ∧ (timestamp t ≤ timestamp d)%Z.
Proof.
  unfold col_le. destruct (o !! column) as [[| | | |t]|]; simpl;
    try (split; [done | by intros (t' & [=] & _)]).
  rewrite Is_true_true, Z.leb_le. split.
  - intros Hle. by exists t.
  - by intros (t' & [= ->] & Hle).
Qed.

Lemma if_truthy_spec {A} `{Truthy A} (x : option A) (clause : A → bool) :
  if_truthy x clause true ↔ ∀ a, x = Some a → truthy a = true → clause a.
Proof.
  unfold if_truthy. destruct x as [a|].
  - destruct (truthy a) eqn:Ha.
    + split.
      * intros Hc a' [= <-] _. exact Hc.
      * intros Hc. by apply Hc.
    + split; [|done]. intros _ a' [= <-] Ha'. congruence.
  - split; [|done]. intros _ a' [=].
Qed.

Lemma int_truthy_spec (n : Z) : truthy n = true ↔ n ≠ 0%Z.
Proof.
  unfold truthy, int_truthy. rewrite negb_true_iff. apply Z.eqb_neq.
Qed.

(** What [get_orders] returns.  It never raises and never changes the
    store; its list is taken in storage order from the stored orders, [count]
    is its length, and an order is in it exactly when it is stored, has this
    [user_id], and passes each filter that is given and true: the instrument
    id and the type by equality, the dates by [start_date <= date] and
    [date <= end_date]. *)
Theorem get_orders_selects s user_id instrument_id start_date end_date type :
  ∃ data,
    crud.get_orders user_id instrument_id start_date end_date type s
    = (Return (OrdersPublic.Build data (Z.of_nat (length data))), s)
    ∧ data `sublist_of` orders s
    ∧ ∀ o, o ∈ data ↔
        o ∈ orders s
        ∧ o !! "user_id" = Some (PInt user_id)
        ∧ (∀ i, instrument_id = Some i → i ≠ 0%Z →
             o !! "instrument_id" = Some (PInt i))
        ∧ (∀ d, start_date = Some d →
             ∃ t, o !! "date" = Some (PDate t) ∧ (timestamp d ≤ timestamp t)%Z)
        ∧ (∀ d, end_date = Some d →
             ∃ t, o !! "date" = Some (PDate t) ∧ (timestamp t ≤ timestamp d)%Z)
        ∧ (∀ t, type = Some t → t ≠ "" → o !! "type" = Some (PStr t)).
Proof.
  eexists. split; [apply get_orders_run|]. split; [apply sublist_filter|].
  intros o. rewrite list_elem_of_filter. unfold orders_selected.
  rewrite !andb_True, !if_truthy_spec, col_eq_spec.
  split.
  - intros [(Huser & Hi & Hs & He & Ht) Ho]. repeat split; [done..| | | |].
    + intros i Hsome Hne. apply col_eq_spec, Hi; [done|]. by apply int_truthy_spec.
    + intros d Hsome. by apply col_ge_spec, Hs.
    + intros d Hsome. by apply col_le_spec, He.
    + intros t Hsome Hne. apply col_eq_spec, Ht; [done|]. by apply str_truthy_spec.
  - intros (Ho & Huser & Hi & Hs & He & Ht). repeat split; [done| | | | |done].
    + intros i Hsome Hne%int_truthy_spec. by apply col_eq_spec, Hi.
    + intros d Hsome _. by apply col_ge_spec, Hs.
    + intros d Hsome _. by apply col_le_spec, He.
    + intros t Hsome Hne%str_truthy_spec. by apply col_eq_spec, Ht.
Qed.

(** A range of dates that ends before it starts selects no order. *)
Theorem get_orders_empty_range s user_id instrument_id start_date end_date type :
  (timestamp end_date < timestamp start_date)%Z →
  crud.get_orders user_id instrument_id (Some start_date) (Some end_date) type s
  = (Return (OrdersPublic.Build [] 0), s).
Proof.
  intros Hrange. rewrite get_orders_run. cbv zeta.
  rewrite filter_none; [done|].
  intros o Ho. unfold orders_selected. rewrite !andb_True, !if_truthy_spec.
  intros (_ & _ & Hs & He & _).
  specialize (Hs start_date eq_refl eq_refl). specialize (He end_date eq_refl eq_refl).
  apply col_ge_spec in Hs as (t & Ht & Hle).
  apply col_le_spec in He as (t' & Ht' & Hle').
  rewrite Ht in Ht'. injection Ht' as <-. lia.
Qed.

Lemma refresh_id_other issued_id (db_obj : Row) key :
  key ≠ "id" → refresh_id issued_id db_obj !! key = db_obj !! key.
Proof.
  intros Hkey. unfold refresh_id.
  destruct (db_obj !! "id") as [[]|]; try done; by rewrite lookup_insert_ne.
Qed.

Lemma refresh_id_issued issued_id (db_obj : Row) :
  db_obj !! "id" = None ∨ db_obj !! "id" = Some PNone →
  refresh_id issued_id db_obj !! "id" = Some (PInt issued_id).
Proof.
  unfold refresh_id. intros [-> | ->]; by rewrite lookup_insert_eq.
Qed.

(** [create_order], for a stored user and the payload of an order on a
    stored instrument, stores the order at the end of the table with the
    [user_id] of the call and the other fields of the payload, as the
    database stores them; the unfiltered listing of this user is afterwards
    the listing of before followed by the new order, and the listings of the
    other users are the same.  For a [user_id] that no stored user has, the
    foreign key refuses the INSERT: [create_order] raises [IntegrityError]
    and stores nothing. *)
Theorem create_order_then_get_orders s issued_id user_id order_create :
  ((∃ u, u ∈ users s ∧ User.id u = user_id) →
   (∃ i instrument_id,
      i ∈ instruments s ∧ pk i = Some (PInt instrument_id)
      ∧ order_create !! "instrument_id" = Some (PInt instrument_id)) →
   ∃ order data,
     crud.create_order issued_id user_id order_create s
     = (Return order, with_orders (.++ [order]) s)
     ∧ order !! "user_id" = Some (PInt user_id)
     ∧ (∀ key, key ≠ "id" → key ≠ "user_id" →
          order !! key = stored <$> order_create !! key)
     ∧ (order_create !! "id" = None → order !! "id" = Some (PInt issued_id))
     ∧ crud.get_orders user_id None None None None s
       = (Return (OrdersPublic.Build data (Z.of_nat (length data))), s)
     ∧ crud.get_orders user_id None None None None (with_orders (.++ [order]) s)
       = (Return (OrdersPublic.Build (data ++ [order]) (Z.of_nat (length data) + 1)),
          with_orders (.++ [order]) s)
     ∧ (∀ other instrument_id start_date end_date type,
          other ≠ user_id →
          (crud.get_orders other instrument_id start_date end_date type
             (with_orders (.++ [order]) s)).1
          = (crud.get_orders other instrument_id start_date end_date type s).1))
  ∧ ((∀ u, u ∈ users s → User.id u ≠ user_id) →
     crud.create_order issued_id user_id order_create s = (Raise IntegrityError, s)).
Proof.
  set (order := refresh_id issued_id
                  (stored <$> <["user_id" := PInt user_id]> order_create)).
  assert (order !! "user_id" = Some (PInt user_id)) as Huser.
  { unfold order. rewrite refresh_id_other by done.
    by rewrite lookup_fmap, lookup_insert_eq. }
  assert (∀ key, key ≠ "id" → key ≠ "user_id" →
            order !! key = stored <$> order_create !! key) as Hkeys.
  { intros key Hid Hkey. unfold order.
    rewrite refresh_id_other by done. by rewrite lookup_fmap, lookup_insert_ne. }
  split.
  - intros (u & Hu & Hid) (i & instrument_id & Hi & Hpk & Hinstrument).
    exists order. eexists. split.
    { unfold crud.create_order. rewrite run_bind, run_read. fold order.
      rewrite decide_True; [reflexivity|]. split.
      - apply Exists_exists. exists u. split; [done|]. by rewrite Huser, Hid.
      - apply Exists_exists. exists i. split; [done|].
        rewrite Hkeys, Hinstrument by done. exact Hpk. }
    split; [done|].
    split; [done|split; [|split; [apply get_orders_run|split]]].
    + intros Hnone. unfold order. apply refresh_id_issued. left.
      by rewrite lookup_fmap, lookup_insert_ne, Hnone.
    + rewrite get_orders_run. cbv zeta. simpl (orders _).
      rewrite filter_app, filter_cons_True.
      * simpl. rewrite length_app. simpl. do 3 f_equal. lia.
      * unfold orders_selected. simpl. rewrite andb_true_r. by apply col_eq_spec.
    + intros other instrument_id' start_date end_date type Hother.
      rewrite !get_orders_run. cbv zeta. simpl (orders _).
      rewrite filter_app, filter_cons_False; [by rewrite app_nil_r|].
      unfold orders_selected. rewrite andb_True, col_eq_spec, Huser.
      intros [[= ?] _]. done.
  - intros Habsent. unfold crud.create_order. rewrite run_bind, run_read.
    fold order. rewrite decide_False; [done|].
    intros [(u & Hu & Hid)%Exists_exists _]. rewrite Huser in Hid.
    injection Hid as Hid. by apply (Habsent u).
Qed.

End orders.

Lemma get_orders_empty_range_witness :
  crud.get_orders 1 None (Some (Datetime 20)) (Some (Datetime 10)) None two_users
  = (Return (OrdersPublic.Build [] 0), two_users).
Proof. apply get_orders_empty_range. simpl. lia. Defined.

Lemma get_orders_selects_witness :
  ∃ data,
    crud.get_orders 1 (Some 4%Z) None None None two_users
    = (Return (OrdersPublic.Build data (Z.of_nat (length data))), two_users)
    ∧ alice_order ∉ data.
Proof.
  destruct (get_orders_selects two_users 1 (Some 4%Z) None None None)
    as (data & Hrun & _ & Hdata).
  exists data. split; [exact Hrun|].
  intros Hin. apply Hdata in Hin as (_ & _ & Hinstrument & _).
  specialize (Hinstrument 4%Z eq_refl). 
  assert (alice_order !! "instrument_id" = Some (PInt 4)) as Hfour
    by (apply Hinstrument; lia).
  vm_compute in Hfour. discriminate.
Defined.

Lemma create_order_then_get_orders_witness :
  (∃ order data,
     crud.create_order (engine := test_engine) 9 2 order_payload two_users
     = (Return order, with_orders (.++ [order]) two_users)
     ∧ order !! "user_id" = Some (PInt 2)
     ∧ order !! "id" = Some (PInt 9)
     ∧ crud.get_orders 2 None None None None (with_orders (.++ [order]) two_users)
       = (Return (OrdersPublic.Build (data ++ [order]) (Z.of_nat (length data) + 1)),
          with_orders (.++ [order]) two_users))
  ∧ crud.create_order (engine := test_engine) 9 5 order_payload two_users
    = (Raise IntegrityError, two_users).
Proof.
  split.
  - destruct (proj1 (create_order_then_get_orders (engine := test_engine)
                       two_users 9 2 order_payload))
      as (order & data & Hrun & Huser & _ & Hid & _ & Hlist & _).
    + exists bob. split; [|reflexivity].
      apply elem_of_cons. right. by apply list_elem_of_singleton.
    + exists microsoft, 4%Z. split; [|split; vm_compute; reflexivity].
      apply elem_of_cons. right. by apply list_elem_of_singleton.
    + exists order, data. split; [exact Hrun|]. split; [exact Huser|].
      split; [|exact Hlist]. apply Hid. vm_compute. reflexivity.
  - apply (proj2 (create_order_then_get_orders (engine := test_engine)
                    two_users 9 5 order_payload)).
    intros u Hu. unfold two_users in Hu. simpl in Hu.
    apply elem_of_cons in Hu as [->| ->%list_elem_of_singleton]; discriminate.
Defined.

(** * Further properties of the updates and deletions of rows *)

Section rows.
Context {engine : Engine}.
Implicit Types (s : Store) (obj row : Row) (rows : list Row)
  (update_dict : gmap string pyval).

Lemma update_row_twice obj obj1 obj2 rows :
  pk obj1 = pk obj →
  (obj2 = obj → obj1 = obj) →
  update_row obj1 obj2 (update_row obj obj1 rows) = update_row obj obj2 rows.
Proof.
  intros Hpk Hback. unfold update_row at 2.
  destruct (decide (obj1 = obj)) as [->|H1]; [done|].
  unfold update_row.
  destruct (decide (obj2 = obj1)) as [->|H2].
  - by rewrite decide_False.
  - rewrite decide_False by (intros ->; by apply H1, Hback).
    rewrite Hpk.
    rewrite (moved_filter_ne pk), (moved_filter_eq pk) by done.
    f_equal. by rewrite <- list_fmap_compose.
Qed.

Lemma update_row_same obj rows : update_row obj obj rows = rows.
Proof. unfold update_row. by rewrite decide_True. Qed.




Lemma filter_delete_row_other (P : Row → Prop) `{!∀ x, Decision (P x)} rows obj :
  (∀ row, pk row = pk obj → ¬ P row) →
  filter P (delete_row obj rows) = filter P rows.
Proof.
  intros Hkey. unfold delete_row. rewrite list_filter_filter.
  apply list_filter_iff. intros row. split; [tauto|].
  intros HP. split; [done|]. intros Hpk. by apply (Hkey row).
Qed.

Lemma delete_row_twice obj rows :
  delete_row obj (delete_row obj rows) = delete_row obj rows.
Proof.
  unfold delete_row. rewrite list_filter_filter. apply list_filter_iff. tauto.
Qed.

(** *** The loop of the partial update *)

Lemma hasattr_apply_update obj update_dict key :
  hasattr (crud.apply_update obj update_dict) key = hasattr obj key.
Proof.
  destruct (hasattr obj key) eqn:Hattr.
  - apply bool_decide_eq_true. rewrite apply_update_lookup, Hattr.
    apply bool_decide_eq_true in Hattr.
    by destruct (update_dict !! key) as [value|]; [eexists|].
  - apply bool_decide_eq_false. rewrite apply_update_lookup, Hattr.
    apply bool_decide_eq_false in Hattr.
    by destruct (update_dict !! key) as [value|].
Qed.


Lemma apply_update_idempotent obj update_dict :
  crud.apply_update (crud.apply_update obj update_dict) update_dict
  = crud.apply_update obj update_dict.
Proof.
  apply map_eq. intros key.
  rewrite (apply_update_lookup (crud.apply_update obj update_dict)).
  rewrite hasattr_apply_update, apply_update_lookup.
  destruct (update_dict !! key) as [value|]; [|done].
  by destruct (hasattr obj key).
Qed.


Lemma apply_update_empty obj : crud.apply_update obj ∅ = obj.
Proof. unfold crud.apply_update. apply map_fold_empty. Qed.



Lemma with_orders_id s : with_orders (λ rows, rows) s = s.
Proof. by destruct s. Qed.

Lemma with_summaries_id s : with_summaries (λ rows, rows) s = s.
Proof. by destruct s. Qed.


(** Sent twice, a payload that does not set the id changes nothing the
    second time: the entity returned by the first update, updated again with
    the same payload in the store of the first update, is returned as it is
    and the store is unchanged. *)
Theorem update_idempotent s obj update_dict :
  update_dict !! "id" = None →
  (∀ order' s', crud.update_order obj update_dict s = (Return order', s') →
     crud.update_order order' update_dict s' = (Return order', s'))
  ∧ (∀ summary' s', crud.update_summary obj update_dict s = (Return summary', s') →
     crud.update_summary summary' update_dict s' = (Return summary', s')).
Proof.
  intros Hid. split; intros obj' s'.
  - rewrite !update_order_run. intros [= <- <-].
    rewrite apply_update_idempotent. f_equal.
    unfold with_orders; simpl. f_equal. apply update_row_same.
  - rewrite !update_summary_run. intros [= <- <-].
    rewrite apply_update_idempotent. f_equal.
    unfold with_summaries; simpl. f_equal. apply update_row_same.
Qed.



(** An empty payload changes nothing: the entity is returned as it is, and
    when it is the row stored under its key the store is unchanged. *)
Theorem update_empty_payload s obj :
  ((∀ row, row ∈ orders s → pk row = pk obj → row = obj) →
   crud.update_order obj ∅ s = (Return obj, s))
  ∧ ((∀ row, row ∈ summaries s → pk row = pk obj → row = obj) →
     crud.update_summary obj ∅ s = (Return obj, s)).
Proof.
  split; intros Hstored.
  - rewrite update_order_run, fmap_empty, apply_update_empty.
    f_equal. rewrite <- (with_orders_id s) at 2.
    unfold with_orders; simpl. f_equal. apply update_row_same.
  - rewrite update_summary_run, fmap_empty, apply_update_empty.
    f_equal. rewrite <- (with_summaries_id s) at 2.
    unfold with_summaries; simpl. f_equal. apply update_row_same.
Qed.


End rows.



Lemma update_idempotent_witness :
  ∃ order' s',
    crud.update_order (engine := test_engine) alice_order alice_order_update two_users
    = (Return order', s')
    ∧ crud.update_order (engine := test_engine) order' alice_order_update s'
      = (Return order', s').
Proof.
  eexists _, _. split; [apply update_order_run|].
  apply (proj1 (update_idempotent (engine := test_engine) two_users
                  alice_order alice_order_update eq_refl)).
  apply update_order_run.
Defined.


Lemma update_empty_payload_witness :
  crud.update_order (engine := test_engine) alice_order ∅ alice_without_summary
  = (Return alice_order, alice_without_summary).
Proof.
  apply (proj1 (update_empty_payload (engine := test_engine)
                  alice_without_summary alice_order)).
  intros row Hrow _. by apply list_elem_of_singleton in Hrow.
Defined.


(** The second update gives back the order of before the first: the two
    updates have moved the row to the end of the table, the merged update
    writes nothing. *)
Lemma update_twice_reverting :
  ∃ order1 s1,
    crud.update_order (engine := test_engine) alice_order {[ "type" := PStr "SELL" ]}
      two_users = (Return order1, s1)
    ∧ crud.update_order (engine := test_engine) order1 {[ "type" := PStr "BUY" ]} s1
      = (Return alice_order,
         with_orders (λ _, [alice_second_order; alice_order]) two_users)
    ∧ crud.update_order (engine := test_engine) alice_order
        ({[ "type" := PStr "BUY" ]} ∪ {[ "type" := PStr "SELL" ]}) two_users
      = (Return alice_order, two_users).
Proof.
  eexists _, _. split; [apply update_order_run|].
  split; vm_compute; reflexivity.
Qed.
Section deletions.
Implicit Types (s : Store) (obj row : Row).

Lemma crud_delete_instrument_run s obj :
  crud.delete_instrument obj s
  = if decide (referred_to "instrument_id" (pk obj) (orders s ++ assets s))
    then (Raise IntegrityError, s)
    else (Return (), with_instruments (delete_row obj) s).
Proof.
  unfold crud.delete_instrument. rewrite run_bind, run_read. by destruct (decide _).
Qed.

(** Delete, then look up.  After [delete_order] or [delete_summary] of a
    row whose id is [id], and after [delete_instrument] of an instrument of
    this id to which no order and no asset refers, the lookup by this id
    finds nothing, the lookups by the other ids give what they gave, and the
    same deletion again changes nothing.  While an order or an asset refers
    to the instrument, the foreign key refuses the DELETE:
    [delete_instrument] raises [IntegrityError] and changes nothing. *)
Theorem delete_then_get_by_id s id obj :
  obj !! "id" = Some (PInt id) →
  (∃ s', crud.delete_order obj s = (Return (), s')
         ∧ crud.get_order_by_id id s' = (Return None, s')
         ∧ (∀ other, other ≠ id →
              (crud.get_order_by_id other s').1 = (crud.get_order_by_id other s).1)
         ∧ crud.delete_order obj s' = (Return (), s'))
  ∧ ((∀ row, row ∈ orders s ++ assets s →
        row !! "instrument_id" ≠ Some (PInt id)) →
     ∃ s', crud.delete_instrument obj s = (Return (), s')
           ∧ crud.get_instrument_by_id id s' = (Return None, s')
           ∧ (∀ other, other ≠ id →
                (crud.get_instrument_by_id other s').1
                = (crud.get_instrument_by_id other s).1)
           ∧ crud.delete_instrument obj s' = (Return (), s'))
  ∧ (∀ row, row ∈ orders s ++ assets s →
       row !! "instrument_id" = Some (PInt id) →
       crud.delete_instrument obj s = (Raise IntegrityError, s))
  ∧ (∃ s', crud.delete_summary (Some obj) s = (Return (), s')
           ∧ crud.get_summary_by_id id s' = (Return None, s')
           ∧ (∀ other, other ≠ id →
                (crud.get_summary_by_id other s').1 = (crud.get_summary_by_id other s).1)
           ∧ crud.delete_summary (Some obj) s' = (Return (), s')).
Proof.
  intros Hobj.
  assert (∀ rows : list Row,
            head (filter (λ row : Row, row !! "id" = Some (PInt id)) (delete_row obj rows))
            = None) as Hgone.
  { intros rows. apply head_filter_None.
    intros row [_ Hpk]%elem_of_delete_row Hrow. apply Hpk. unfold pk. congruence. }
  assert (∀ (rows : list Row) other, other ≠ id →
            filter (λ row : Row, row !! "id" = Some (PInt other)) (delete_row obj rows)
            = filter (λ row : Row, row !! "id" = Some (PInt other)) rows) as Hother.
  { intros rows other Hne. apply filter_delete_row_other.
    intros row Hpk. unfold pk in Hpk. rewrite Hpk, Hobj. intros [= ?]. done. }
  split; [|split; [|split]].
  - eexists. split; [reflexivity|]. split; [|split].
    + rewrite get_order_by_id_run. simpl. by rewrite Hgone.
    + intros other Hne. rewrite !get_order_by_id_run. simpl. by rewrite Hother.
    + unfold crud.delete_order. rewrite !run_modify. f_equal.
      unfold with_orders; simpl. f_equal. apply delete_row_twice.
  - intros Hfree.
    assert (¬ referred_to "instrument_id" (pk obj) (orders s ++ assets s)) as Hnone.
    { unfold pk. rewrite Hobj. intros (row & Hrow & Hrefers)%Exists_exists.
      by apply (Hfree row). }
    eexists. split; [by rewrite crud_delete_instrument_run, decide_False|].
    split; [|split].
    + rewrite get_instrument_by_id_run. simpl. by rewrite Hgone.
    + intros other Hne. rewrite !get_instrument_by_id_run. simpl. by rewrite Hother.
    + rewrite crud_delete_instrument_run. simpl. rewrite decide_False by done.
      f_equal. unfold with_instruments; simpl. f_equal. apply delete_row_twice.
  - intros row Hrow Hrefers. rewrite crud_delete_instrument_run.
    rewrite decide_True; [done|]. unfold pk. rewrite Hobj.
    apply Exists_exists. by exists row.
  - eexists. split; [reflexivity|]. split; [|split].
    + rewrite get_summary_by_id_run. simpl. by rewrite Hgone.
    + intros other Hne. rewrite !get_summary_by_id_run. simpl. by rewrite Hother.
    + unfold crud.delete_summary. rewrite !run_modify. f_equal.
      unfold with_summaries; simpl. f_equal. apply delete_row_twice.
Qed.

End deletions.

Lemma delete_then_get_by_id_witness :
  (∃ s', crud.delete_order alice_order two_users = (Return (), s')
         ∧ crud.get_order_by_id 7 s' = (Return None, s')
         ∧ (crud.get_order_by_id 8 s').1 = (crud.get_order_by_id 8 two_users).1)
  ∧ (∃ s', crud.delete_instrument apple (with_orders (λ _, []) two_users)
           = (Return (), s')
           ∧ crud.get_instrument_by_id 3 s' = (Return None, s'))
  ∧ crud.delete_instrument apple two_users = (Raise IntegrityError, two_users).
Proof.
  assert (apple !! "id" = Some (PInt 3)) as Happle by (vm_compute; reflexivity).
  split; [|split].
  - destruct (delete_then_get_by_id two_users 7 alice_order eq_refl)
      as [(s' & Hrun & Hgone & Hother & _) _].
    exists s'. split; [exact Hrun|]. split; [exact Hgone|]. apply Hother. lia.
  - destruct (delete_then_get_by_id (with_orders (λ _, []) two_users) 3 apple Happle)
      as (_ & Hfree & _).
    destruct Hfree as (s' & Hrun & Hgone & _).
    + intros row Hrow. by apply elem_of_nil in Hrow.
    + exists s'. split; [exact Hrun | exact Hgone].
  - destruct (delete_then_get_by_id two_users 3 apple Happle) as (_ & _ & Hrefused & _).
    apply (Hrefused alice_order).
    + apply elem_of_cons. by left.
    + vm_compute. reflexivity.
Defined.

(** * Further properties of the instruments and summaries *)

Section instruments.
Context {engine : Engine}.
Implicit Types (s : Store) (instrument : Instrument).

(** [update_instrument_prices] sets the four prices and
    [update_instrument_currency] the currency, as the database stores them,
    and nothing else of the instrument; done one after the other on an
    instrument, in either order, they give the same instrument and the same
    store. *)
Theorem instrument_updates_commute s instrument open high low close currency :
  ∃ priced s1 both s2 converted t1,
    crud.update_instrument_prices instrument open high low close s = (Return priced, s1)
    ∧ crud.update_instrument_currency priced currency s1 = (Return both, s2)
    ∧ crud.update_instrument_currency instrument currency s = (Return converted, t1)
    ∧ crud.update_instrument_prices converted open high low close t1 = (Return both, s2)
    ∧ both !! "open" = Some (stored (PFloat open))
    ∧ both !! "high" = Some (stored (PFloat high))
    ∧ both !! "low" = Some (stored (PFloat low))
    ∧ both !! "close" = Some (stored (PFloat close))
    ∧ both !! "currency" = Some (PStr currency)
    ∧ (∀ key, key ∉ ["open"; "high"; "low"; "close"; "currency"] →
         both !! key = instrument !! key)
    ∧ (∀ key, key ∉ ["open"; "high"; "low"; "close"] →
         priced !! key = instrument !! key)
    ∧ (∀ key, key ≠ "currency" → converted !! key = instrument !! key).
Proof.
  set (priced := <["close" := stored (PFloat close)]> (<["low" := stored (PFloat low)]>
                   (<["high" := stored (PFloat high)]>
                      (<["open" := stored (PFloat open)]> instrument)))).
  set (converted := <["currency" := PStr currency]> instrument).
  set (both := <["currency" := PStr currency]> priced).
  assert (<["close" := stored (PFloat close)]> (<["low" := stored (PFloat low)]>
            (<["high" := stored (PFloat high)]>
               (<["open" := stored (PFloat open)]> converted))) = both) as Hcomm.
  { unfold both, priced, converted. apply map_eq. intros key.
    repeat (rewrite lookup_insert; case_decide; subst; simplify_eq; try done). }
  assert (pk priced = pk instrument) as Hpriced.
  { unfold pk, priced. by rewrite !lookup_insert_ne. }
  assert (pk converted = pk instrument) as Hconverted.
  { unfold pk, converted. by rewrite lookup_insert_ne. }
  assert (both = instrument → priced = instrument) as Hback.
  { intros Heq. apply map_eq. intros key.
    destruct (decide (key = "currency")) as [->|Hkey].
    - unfold priced. by rewrite !lookup_insert_ne.
    - rewrite <- Heq. unfold both. by rewrite lookup_insert_ne. }
  assert (both = instrument → converted = instrument) as Hback'.
  { intros Heq. apply map_eq. intros key.
    destruct (decide (key = "currency")) as [->|Hkey].
    - rewrite <- Heq. unfold converted, both. by rewrite !lookup_insert_eq.
    - unfold converted. by rewrite lookup_insert_ne. }
  exists priced, (with_instruments (update_row instrument priced) s),
    both, (with_instruments (update_row instrument both) s),
    converted, (with_instruments (update_row instrument converted) s).
  split; [reflexivity|]. split; [|split; [reflexivity|split]].
  - unfold crud.update_instrument_currency.
    rewrite run_bind, run_modify, run_ret. unfold setattr. simpl (stored _).
    fold both. f_equal. unfold with_instruments; simpl. f_equal.
    by apply update_row_twice.
  - unfold crud.update_instrument_prices.
    rewrite run_bind, run_modify, run_ret. unfold setattr.
    rewrite Hcomm. f_equal. unfold with_instruments; simpl. f_equal.
    by apply update_row_twice.
  - unfold both, priced. repeat split.
    + repeat (rewrite lookup_insert_ne by done). apply lookup_insert_eq.
    + repeat (rewrite lookup_insert_ne by done). apply lookup_insert_eq.
    + repeat (rewrite lookup_insert_ne by done). apply lookup_insert_eq.
    + repeat (rewrite lookup_insert_ne by done). apply lookup_insert_eq.
    + apply lookup_insert_eq.
    + intros key Hkey. rewrite !lookup_insert_ne; [done|..];
        intros <-; apply Hkey; set_solver.
    + intros key Hkey. rewrite !lookup_insert_ne; [done|..];
        intros <-; apply Hkey; set_solver.
    + intros key Hkey. unfold converted. by rewrite lookup_insert_ne.
Qed.

(** Create, then look up.  When no stored instrument has the symbol of the
    payload, [create_instrument] stores the payload, as the database stores
    it, at the end of the table with the id issued when the payload has
    none, and [get_instrument_by_symbol] finds the new instrument
    afterwards.  When a stored instrument has the symbol, the unique index
    refuses the INSERT: [create_instrument] raises [IntegrityError] and
    stores nothing. *)
Theorem create_instrument_then_get_by_symbol s issued_id instrument_create symbol :
  instrument_create !! "symbol" = Some (PStr symbol) →
  ((∀ i : Row, i ∈ instruments s → i !! "symbol" ≠ Some (PStr symbol)) →
   ∃ instrument s',
     crud.create_instrument issued_id instrument_create s = (Return instrument, s')
     ∧ instruments s' = instruments s ++ [instrument]
     ∧ (∀ key, key ≠ "id" → instrument !! key = stored <$> instrument_create !! key)
     ∧ (instrument_create !! "id" = None → instrument !! "id" = Some (PInt issued_id))
     ∧ crud.get_instrument_by_symbol symbol s' = (Return (Some instrument), s'))
  ∧ (∀ i : Row, i ∈ instruments s → i !! "symbol" = Some (PStr symbol) →
       crud.create_instrument issued_id instrument_create s
       = (Raise IntegrityError, s)).
Proof.
  intros Hsymbol.
  set (db_obj := refresh_id issued_id (stored <$> instrument_create)).
  assert (db_obj !! "symbol" = Some (PStr symbol)) as Hdb.
  { unfold db_obj. rewrite refresh_id_other by done.
    by rewrite lookup_fmap, Hsymbol. }
  split.
  - intros Hfresh. exists db_obj, (with_instruments (.++ [db_obj]) s). split.
    { unfold crud.create_instrument. rewrite run_bind, run_read. fold db_obj.
      rewrite decide_False; [reflexivity|].
      intros (i & Hi & Htaken)%Exists_exists. rewrite Hdb in Htaken.
      by apply (Hfresh i). }
    split; [done|]. split; [|split].
    + intros key Hkey. unfold db_obj. rewrite refresh_id_other by done.
      apply lookup_fmap.
    + intros Hnone. apply refresh_id_issued. left. by rewrite lookup_fmap, Hnone.
    + rewrite get_instrument_by_symbol_run. simpl. do 2 f_equal.
      by apply head_filter_app_fresh.
  - intros i Hi Htaken. unfold crud.create_instrument. rewrite run_bind, run_read.
    fold db_obj. rewrite decide_True; [done|].
    apply Exists_exists. exists i. split; [done|]. by rewrite Hdb.
Qed.

(** A user has one summary.  For a stored user who has no summary,
    [create_summary] stores a summary of the user under a new id of the
    sequence, and [get_summary_by_user_id] finds it afterwards.  For a user
    who has a summary, or who is not stored, the INSERT is refused:
    [create_summary] raises [IntegrityError], the summaries are as before
    and the id is spent. *)
Theorem create_summary_then_get_by_user_id s user :
  ((∃ u, u ∈ users s ∧ User.id u = User.id user) →
   (∀ r : Row, r ∈ summaries s → r !! "user_id" ≠ Some (PInt (User.id user))) →
   ∃ summary s',
     crud.create_summary user s = (Return summary, s')
     ∧ summary !! "user_id" = Some (PInt (User.id user))
     ∧ summary !! "id" = Some (PInt (summary_id_seq s + 1))
     ∧ summaries s' = summaries s ++ [summary]
     ∧ summary_id_seq s' = (summary_id_seq s + 1)%Z
     ∧ crud.get_summary_by_user_id (User.id user) s' = (Return (Some summary), s'))
  ∧ ((∃ r : Row, r ∈ summaries s ∧ r !! "user_id" = Some (PInt (User.id user)))
     ∨ (∀ u, u ∈ users s → User.id u ≠ User.id user) →
     crud.create_summary user s
     = (Raise IntegrityError, with_summary_id_seq (summary_id_seq s + 1) s)).
Proof.
  split.
  - intros (u & Hu & Hid) Hnone.
    exists (new_summary s user),
      (with_summaries (.++ [new_summary s user])
         (with_summary_id_seq (summary_id_seq s + 1) s)).
    split.
    { unfold crud.create_summary. rewrite run_bind, run_read, run_bind, run_modify.
      rewrite decide_True; [reflexivity|]. split.
      - apply Exists_exists. exists u. split; [done|]. by rewrite Hid.
      - intros (r & Hr & Huser)%Exists_exists. by apply (Hnone r). }
    split; [done|]. split; [apply lookup_insert_eq|]. split; [done|]. split; [done|].
    rewrite get_summary_by_user_id_run. simpl. do 2 f_equal.
    by apply head_filter_app_fresh.
  - intros Hrefused. unfold crud.create_summary.
    rewrite run_bind, run_read, run_bind, run_modify.
    rewrite decide_False; [done|]. intros [Hstored Hnone].
    destruct Hrefused as [(r & Hr & Huser) | Habsent].
    + apply Hnone, Exists_exists. by exists r.
    + apply Exists_exists in Hstored as (u & Hu & [= Hid]). by apply (Habsent u).
Qed.

End instruments.

Lemma instrument_updates_commute_witness :
  ∃ priced s1 both s2,
    crud.update_instrument_prices (engine := test_engine) apple (2 ^ 63) 4 0 2 two_users
    = (Return priced, s1)
    ∧ crud.update_instrument_currency (engine := test_engine) priced "EUR" s1
      = (Return both, s2)
    ∧ both !! "symbol" = Some (PStr "AAPL")
    ∧ both !! "open" = Some (PFloat 0)
    ∧ both !! "high" = Some (PFloat 4)
    ∧ both !! "currency" = Some (PStr "EUR").
Proof.
  destruct (instrument_updates_commute (engine := test_engine) two_users apple
              (2 ^ 63) 4 0 2 "EUR")
    as (priced & s1 & both & s2 & converted & t1 & Hp & Hb & _ & _ & Hopen & Hhigh & _ & _
        & Hcur & Hkeep & _).
  exists priced, s1, both, s2. split; [exact Hp|]. split; [exact Hb|].
  split; [|split; [exact Hopen | split; [exact Hhigh | exact Hcur]]].
  rewrite Hkeep; [vm_compute; reflexivity|].
  intros Hin. repeat (apply elem_of_cons in Hin as [Hin|Hin]; [discriminate|]).
  by apply elem_of_nil in Hin.
Defined.

Lemma create_instrument_then_get_by_symbol_witness :
  (∃ instrument s',
     crud.create_instrument (engine := test_engine) 5 {[ "symbol" := PStr "GOOG" ]}
       two_users
     = (Return instrument, s')
     ∧ crud.get_instrument_by_symbol "GOOG" s' = (Return (Some instrument), s'))
  ∧ crud.create_instrument (engine := test_engine) 5 {[ "symbol" := PStr "MSFT" ]}
      two_users
    = (Raise IntegrityError, two_users).
Proof.
  assert (({[ "symbol" := PStr "GOOG" ]} : gmap string pyval) !! "symbol"
          = Some (PStr "GOOG")) as Hgoog by (vm_compute; reflexivity).
  assert (({[ "symbol" := PStr "MSFT" ]} : gmap string pyval) !! "symbol"
          = Some (PStr "MSFT")) as Hmsft by (vm_compute; reflexivity).
  split.
  - destruct (proj1 (create_instrument_then_get_by_symbol (engine := test_engine)
                       two_users 5 {[ "symbol" := PStr "GOOG" ]} "GOOG" Hgoog))
      as (instrument & s' & Hrun & _ & _ & _ & Hnew).
    + intros i Hi. unfold two_users in Hi. simpl in Hi.
      apply elem_of_cons in Hi as [->| ->%list_elem_of_singleton];
        vm_compute; discriminate.
    + exists instrument, s'. split; [exact Hrun | exact Hnew].
  - apply (proj2 (create_instrument_then_get_by_symbol (engine := test_engine)
                    two_users 5 {[ "symbol" := PStr "MSFT" ]} "MSFT" Hmsft) microsoft).
    + apply elem_of_cons. right. by apply list_elem_of_singleton.
    + vm_compute. reflexivity.
Defined.

Lemma create_summary_then_get_by_user_id_witness :
  (∃ summary s',
     crud.create_summary bob two_users = (Return summary, s')
     ∧ crud.get_summary_by_user_id 2 s' = (Return (Some summary), s'))
  ∧ crud.create_summary alice alice_store
    = (Raise IntegrityError, with_summary_id_seq 2 alice_store).
Proof.
  split.
  - destruct (proj1 (create_summary_then_get_by_user_id two_users bob))
      as (summary & s' & Hrun & _ & _ & _ & _ & Hnew).
    + exists bob. split; [|reflexivity].
      apply elem_of_cons. right. by apply list_elem_of_singleton.
    + intros r Hr. by apply elem_of_nil in Hr.
    + exists summary, s'. split; [exact Hrun | exact Hnew].
  - apply (proj2 (create_summary_then_get_by_user_id alice_store alice)).
    left. eexists. split; [by apply list_elem_of_singleton | reflexivity].
Defined.
